(** * Offline synchronisation of Neptune experiments

    A shallow embedding of [neptune/alpha/sync.py]: the synchroniser that
    replays the operations queued on disk to the Neptune backend, the check
    that tells whether an experiment is already synchronised, and the
    registration of experiments that were created offline.

    The file system under the [.neptune] folder, the backend and Python's
    [uuid.UUID] are the environment of the program.  The file system is a
    pair of finite maps from directory names to experiment directories, the
    backend is an interface ([NeptuneBackend]) over an arbitrary state, and
    the UUID parser is an interface of its own ([Runtime]).  Everything the
    program does to its environment is recorded, in order, in a trace. *)

From Stdlib Require Import ZArith List Lia.
From Equations Require Import Equations.
From stdpp Require Import base option list sorting gmap strings pretty fin_maps.
Import ListNotations.

Set Default Proof Using "Type".

(** ** Data *)

(** The payload of an operation is opaque to the synchroniser. *)
Definition Operation : Type := string.

(** The value of a parsed [uuid.UUID]. *)
Definition UUID : Type := string.

(** [neptune.alpha.internal.operation.VersionedOperation]: Python integers
    are unbounded, hence [Z]. *)
Record VersionedOperation := mkVersionedOperation {
  op : Operation;
  version : Z;
}.

Module Experiment.
Record t := mk {
  uuid : string;
  shortId : string;
  organizationName : string;
  projectName : string;
}.
End Experiment.

(** The fields of [api_model.Project] that [sync.py] reads. *)
Module Project.
Record t := mk {
  uuid : string;
  workspace : string;
  name : string;
}.
End Project.

(** What [backend.create_experiment] returns: [uuid] is [str(experiment.uuid)]. *)
Module ApiExperiment.
Record t := mk {
  uuid : string;
  id : string;
}.
End ApiExperiment.

(** ** Exceptions and results *)

Inductive exn :=
| HTTPError (status_code : Z)
| ProjectNotFound
| ValueError
| AttributeError
| OSError
| OtherError (detail : string).

Inductive result (A : Type) :=
| Ok (a : A)
| Raise (e : exn).
Arguments Ok {A} a.
Arguments Raise {A} e.

(** ** The environment *)

(** Modelled from the spec: the Disk Queue and the Sync Offset file
    ([DiskQueue] and [SyncOffsetFile] are not part of the sources at hand).
    A queue is the sequence of records appended so far, a reader starts at
    its beginning, and the offset file holds one integer or is absent. *)
Record RunDir := mkRunDir {
  queue : list VersionedOperation;
  sync_offset_file : option Z;
}.

(** [base_path / name] and [base_path / OFFLINE_DIRECTORY / name]. *)
Inductive path :=
| RunPath (name : string)
| OfflinePath (name : string).

Definition path_name (p : path) : string :=
  match p with RunPath n => n | OfflinePath n => n end.

Inductive stream := stdout | stderr.

Inductive message :=
| GetExperimentWarning (experimentId : string) (status_code : Z) (skipping : bool)
| ProjectNameNotProvided
| ProjectNotFoundMessage (project_name : string)
| Synchronising (qualified_experiment_name : string)
| SynchronizationCompleted (qualified_experiment_name : string)
| ExperimentDoesNotExist (name : string)
| CreateExperimentFailed
| OfflineExperimentRegistered (experiment_uuid : string) (qualified_name : string).

Inductive event :=
| Printed (s : stream) (m : message)
| GetExperimentCall (experimentId : string)
| GetProjectCall (project_name : string)
| CreateExperimentCall (project_uuid : string)
| ExecuteOperationsCall (experiment_uuid : UUID) (ops : list Operation)
| OffsetWritten (p : path) (v : Z)
| Renamed (src dst : path).

(** The backend: every call takes the backend from one state to the next
    and either returns or raises. *)
Class NeptuneBackend (B : Type) := {
  getExperiment : B → string → B * result Experiment.t;
  backend_get_project : B → string → B * result Project.t;
  create_experiment : B → string → B * result ApiExperiment.t;
  execute_operations : B → UUID → list Operation → B * result unit;
}.

(** [uuid.UUID(val)]: [None] stands for [ValueError]. *)
Class Runtime := {
  uuid_UUID : string → option UUID;
}.

Record World (B : Type) := mkWorld {
  backend : B;
  runs : gmap string RunDir;
  offline_runs : gmap string RunDir;
  project_env : option string;
  trace : list event;
}.
Arguments mkWorld {B}.
Arguments backend {B}.
Arguments runs {B}.
Arguments offline_runs {B}.
Arguments project_env {B}.
Arguments trace {B}.

(** ** A state and exception monad over the world *)

Definition M (B A : Type) : Type := World B → World B * result A.

Definition ret {B A} (a : A) : M B A := λ w, (w, Ok a).

Definition raise {B A} (e : exn) : M B A := λ w, (w, Raise e).

Definition bind {B A C} (m : M B A) (k : A → M B C) : M B C :=
  λ w, match m w with
       | (w', Ok a) => k a w'
       | (w', Raise e) => (w', Raise e)
       end.

Notation "'let!' x ':=' m 'in' k" := (bind m (λ x, k))
  (at level 10, x name, m at level 100, k at level 200).
Notation "m ';;;' k" := (bind m (λ _, k))
  (at level 100, k at level 200, right associativity).

Definition with_backend {B} (b : B) (w : World B) : World B :=
  mkWorld b (runs w) (offline_runs w) (project_env w) (trace w).

Definition with_runs {B} (r : gmap string RunDir) (w : World B) : World B :=
  mkWorld (backend w) r (offline_runs w) (project_env w) (trace w).

Definition with_offline_runs {B} (r : gmap string RunDir) (w : World B) : World B :=
  mkWorld (backend w) (runs w) r (project_env w) (trace w).

Definition record {B} (ev : event) (w : World B) : World B :=
  mkWorld (backend w) (runs w) (offline_runs w) (project_env w) (trace w ++ [ev]).

Definition emit {B} (ev : event) : M B unit := λ w, (record ev w, Ok tt).

Definition print {B} (s : stream) (m : message) : M B unit := emit (Printed s m).

(** A call to the backend: the call is recorded, then the backend moves. *)
Definition call {B A} (ev : event) (f : B → B * result A) : M B A :=
  λ w, let '(b', r) := f (backend w) in (with_backend b' (record ev w), r).

(** ** The file system *)

Definition run_dir {B} (p : path) (w : World B) : option RunDir :=
  match p with
  | RunPath n => runs w !! n
  | OfflinePath n => offline_runs w !! n
  end.

Definition set_run_dir {B} (p : path) (d : option RunDir) (w : World B) : World B :=
  match p with
  | RunPath n => with_runs (partial_alter (λ _, d) n (runs w)) w
  | OfflinePath n => with_offline_runs (partial_alter (λ _, d) n (offline_runs w)) w
  end.

(** Modelled from the spec: [SyncOffsetFile.read], "integer or absent". *)
Definition sync_offset_file_read {B} (p : path) (w : World B) : option Z :=
  run_dir p w ≫= sync_offset_file.

Definition set_sync_offset_file {B} (p : path) (o : option Z) (w : World B) : World B :=
  match run_dir p w with
  | Some d => set_run_dir p (Some (mkRunDir (queue d) o)) w
  | None => w
  end.

(** Modelled from the spec: [SyncOffsetFile.write], "a single atomic replace
    of the persisted value". *)
Definition sync_offset_file_write {B} (p : path) (v : Z) : M B unit :=
  λ w, (set_sync_offset_file p (Some v) (record (OffsetWritten p v) w), Ok tt).

(** Modelled from the spec: a fresh [DiskQueue] reader over the directory;
    its state is the list of records not read yet. *)
Definition DiskQueue {B} (p : path) (w : World B) : list VersionedOperation :=
  from_option queue [] (run_dir p w).

(** Modelled from the spec: [DiskQueue.get], the next record or [None]. *)
Definition disk_queue_get (disk_queue : list VersionedOperation)
  : option VersionedOperation * list VersionedOperation :=
  match disk_queue with
  | [] => (None, [])
  | operation :: rest => (Some operation, rest)
  end.

(** Modelled from the spec: [DiskQueue.get_batch], "up to [max_count]
    records starting after the cursor, preserving version order". *)
Definition get_batch (size : nat) (disk_queue : list VersionedOperation)
  : list VersionedOperation * list VersionedOperation :=
  (firstn size disk_queue, skipn size disk_queue).

(** [Path.rename] on directories of experiments: the source has to exist,
    and the target must not (an experiment directory is never empty, so
    the operating system refuses to replace it). *)
Definition rename {B} (src dst : path) : M B unit :=
  λ w, match run_dir src w, run_dir dst w with
       | Some d, None =>
           (set_run_dir dst (Some d) (set_run_dir src None (record (Renamed src dst) w)), Ok tt)
       | _, _ => (w, Raise OSError)
       end.

(** The offline folder as [iterdir] sees it.  [offline_runs] holds the
    experiment directories in it; on top of that the folder may be missing
    altogether, and plain files may lie next to the directories.  A plain
    file has a name and nothing more: the listing sees it, [is_dir] does
    not take it for a directory, and [rename] above, which moves experiment
    directories, refuses it where the operating system would move it.  The
    statements on the registration are about directories. *)
Inductive offline_folder :=
| NoOfflineFolder
| OfflineFolder (files : list string).

(** A value together with the equation that says where it comes from; the
    loop of [sync_experiment] needs it to see that the reader advances. *)
Definition inspect {A} (a : A) : {b : A | a = b} := exist _ a eq_refl.

(** ** The program *)

Section Sync.
Context {B : Type} `{!NeptuneBackend B} `{!Runtime}.

Local Abbreviation World := (World B).
Local Abbreviation M := (M B).

(** *** Experiment and project utilities *)

Definition report_get_experiment_error (experimentId : string) (status_code : Z)
    (skipping : bool) : M unit :=
  print stderr (GetExperimentWarning experimentId status_code skipping).

Definition get_experiment (experiment_id : string) : M (option Experiment.t) :=
  λ w, match call (GetExperimentCall experiment_id)
               (λ b, getExperiment b experiment_id) w with
       | (w', Ok response) => (w', Ok (Some response))
       | (w', Raise (HTTPError status_code)) =>
           if bool_decide (status_code ∈ [401; 403; 404]%Z)
           then (report_get_experiment_error experiment_id status_code true ;;; ret None) w'
           else (report_get_experiment_error experiment_id status_code false ;;; ret None) w'
       | (w', Raise e) => (w', Raise e)
       end.

Definition get_project (project_name_flag : option string) : M (option Project.t) :=
  λ w,
    let project_name :=
      match project_name_flag with
      | Some flag => if bool_decide (flag = "") then project_env w else Some flag
      | None => project_env w
      end in
    match project_name with
    | None => (print stderr ProjectNameNotProvided ;;; ret None) w
    | Some project_name =>
        if bool_decide (project_name = "")
        then (print stderr ProjectNameNotProvided ;;; ret None) w
        else
          match call (GetProjectCall project_name)
                  (λ b, backend_get_project b project_name) w with
          | (w', Ok project) => (w', Ok (Some project))
          | (w', Raise ProjectNotFound) =>
              (print stderr (ProjectNotFoundMessage project_name) ;;; ret None) w'
          | (w', Raise e) => (w', Raise e)
          end
    end.

Definition get_qualified_name (experiment : Experiment.t) : string :=
  Experiment.organizationName experiment +:+ "/" +:+
  Experiment.projectName experiment +:+ "/" +:+
  Experiment.shortId experiment.

Definition is_valid_uuid (val : string) : bool :=
  match uuid_UUID val with
  | Some _ => true
  | None => false
  end.

(** *** Listing experiments to be synchronized *)

(** The [while True] loop of [is_experiment_synced]: read the queue to its
    end, keeping the last operation seen.  Each turn is one
    [disk_queue.get()] on the reader ([last_operation_get]). *)
Fixpoint last_operation (disk_queue : list VersionedOperation)
    (previous_operation : option VersionedOperation) : option VersionedOperation :=
  match disk_queue with
  | [] => previous_operation
  | operation :: disk_queue' => last_operation disk_queue' (Some operation)
  end.

Definition is_experiment_synced (experiment_path : path) (w : World) : bool :=
  match sync_offset_file_read experiment_path w with
  | None => false
  | Some sync_offset =>
      match last_operation (DiskQueue experiment_path w) None with
      | None => true
      | Some previous_operation => (sync_offset >=? version previous_operation)%Z
      end
  end.

(** *** Experiment synchronization *)

(** The [for] loop of the last branch: the suffix of the batch that starts
    at the first operation newer than the offset, if there is one. *)
Fixpoint first_newer (sync_offset : Z) (batch : list VersionedOperation)
    : option (list VersionedOperation) :=
  match batch with
  | [] => None
  | operation :: rest =>
      if (version operation >? sync_offset)%Z then Some batch
      else first_newer sync_offset rest
  end.

(** The [if]/[elif]/[else] on a batch [first :: rest]: [None] is
    [continue], [Some batch] is the batch that goes to the backend. *)
Definition unsent (sync_offset : Z) (first : VersionedOperation)
    (rest : list VersionedOperation) : option (list VersionedOperation) :=
  let batch := first :: rest in
  if (version first >? sync_offset)%Z then Some batch
  else if (version (List.last batch first) <=? sync_offset)%Z then None
  else Some (default batch (first_newer sync_offset batch)).

(** [batch[-1].version] of the batch sent; that batch is never empty, so
    the default is never used. *)
Definition last_version (batch : list VersionedOperation) : Z :=
  version (List.last batch (mkVersionedOperation "" 0)).

(** What happens to one batch that is sent: the call, then the write. *)
Definition send (experiment_path : path) (experiment_uuid : UUID)
    (batch : list VersionedOperation) : M unit :=
  call (ExecuteOperationsCall experiment_uuid (map op batch))
       (λ b, execute_operations b experiment_uuid (map op batch)) ;;;
  sync_offset_file_write experiment_path (last_version batch).

(** The [while True] loop of [sync_experiment], for a reader that hands out
    batches of at most [size] records. *)
Equations? sync_loop (size : nat) (experiment_path : path) (experiment_uuid : UUID)
    (qualified_experiment_name : string) (disk_queue : list VersionedOperation)
    (sync_offset : Z) (w : World) : World * result unit
    by wf (length disk_queue) lt :=
  sync_loop size experiment_path experiment_uuid qualified_experiment_name
            disk_queue sync_offset w
    with inspect (get_batch size disk_queue) := {
    | exist _ ([], _) _ =>
        print stdout (SynchronizationCompleted qualified_experiment_name) w
    | exist _ (first :: rest, disk_queue') Hbatch
        with unsent sync_offset first rest := {
        | None =>
            sync_loop size experiment_path experiment_uuid
                      qualified_experiment_name disk_queue' sync_offset w
        | Some batch with send experiment_path experiment_uuid batch w := {
            | (w', Raise e) => (w', Raise e)
            | (w', Ok _) =>
                sync_loop size experiment_path experiment_uuid
                          qualified_experiment_name disk_queue'
                          (last_version batch) w' } } }.
Proof.
  all: unfold get_batch in Hbatch; injection Hbatch as Hfirst Hrest; subst disk_queue'.
  all: destruct size as [|size]; [discriminate|].
  all: destruct disk_queue as [|o disk_queue]; [discriminate|].
  all: rewrite length_skipn; simpl; lia.
Qed.

(** [sync_experiment], with the size of the batches as a parameter. *)
Definition sync_experiment_with (size : nat) (experiment_path : path)
    (qualified_experiment_name : string) : M unit :=
  λ w, match uuid_UUID (path_name experiment_path) with
       | None => (w, Raise ValueError)
       | Some experiment_uuid =>
           (print stdout (Synchronising qualified_experiment_name) ;;;
            λ w', let disk_queue := DiskQueue experiment_path w' in
                  let sync_offset := default 0%Z (sync_offset_file_read experiment_path w') in
                  sync_loop size experiment_path experiment_uuid
                            qualified_experiment_name disk_queue sync_offset w') w
       end.

Definition sync_experiment : path → string → M unit := sync_experiment_with 1000.

(** The same loop over the batches already read: the reader does not depend
    on what the loop does, so the two agree ([sync_loop_process]). *)
Fixpoint process (experiment_path : path) (experiment_uuid : UUID)
    (qualified_experiment_name : string) (bs : list (list VersionedOperation))
    (sync_offset : Z) (w : World) : World * result unit :=
  match bs with
  | [] | [] :: _ =>
      print stdout (SynchronizationCompleted qualified_experiment_name) w
  | (first :: rest) :: bs' =>
      match unsent sync_offset first rest with
      | None =>
          process experiment_path experiment_uuid qualified_experiment_name
                  bs' sync_offset w
      | Some batch =>
          match send experiment_path experiment_uuid batch w with
          | (w', Raise e) => (w', Raise e)
          | (w', Ok _) =>
              process experiment_path experiment_uuid qualified_experiment_name
                      bs' (last_version batch) w'
          end
      end
  end.

(** A [for] loop whose body may raise. *)
Fixpoint for_each {A} (xs : list A) (body : A → M unit) : M unit :=
  match xs with
  | [] => ret tt
  | x :: xs' => body x ;;; for_each xs' body
  end.

(** [path.iterdir()] on the base directory.  The [offline] folder is an
    entry too, but its name is no UUID and both callers skip it. *)
Definition iterdir (w : World) : list string := (map_to_list (runs w)).*1.

Definition sync_all_registered_experiments_body (name : string) : M unit :=
  λ w, if is_valid_uuid name && negb (is_experiment_synced (RunPath name) w)
       then (let! experiment := get_experiment name in
             match experiment with
             | Some experiment =>
                 sync_experiment (RunPath name) (get_qualified_name experiment)
             | None => ret tt
             end) w
       else (w, Ok tt).

(** [sync_all_registered_experiments] over a given listing of the base
    directory. *)
Definition sync_all_registered_experiments_over (entries : list string) : M unit :=
  for_each entries sync_all_registered_experiments_body.

Definition sync_all_registered_experiments : M unit :=
  λ w, sync_all_registered_experiments_over (iterdir w) w.

Definition sync_selected_registered_experiments_body (name : string) : M unit :=
  let! experiment := get_experiment name in
  match experiment with
  | Some experiment =>
      λ w, let experiment_path := RunPath (Experiment.uuid experiment) in
           match run_dir experiment_path w with
           | Some _ => sync_experiment experiment_path name w
           | None => print stderr (ExperimentDoesNotExist name) w
           end
  | None => ret tt
  end.

Definition sync_selected_registered_experiments
    (qualified_experiment_names : list string) : M unit :=
  for_each qualified_experiment_names sync_selected_registered_experiments_body.

(** *** Offline experiments *)

Definition register_offline_experiment (project : Project.t) : M (option Experiment.t) :=
  λ w, match call (CreateExperimentCall (Project.uuid project))
               (λ b, create_experiment b (Project.uuid project)) w with
       | (w', Ok experiment) =>
           (w', Ok (Some (Experiment.mk (ApiExperiment.uuid experiment)
                                        (ApiExperiment.id experiment)
                                        (Project.workspace project)
                                        (Project.name project))))
       | (w', Raise _) => (print stderr CreateExperimentFailed ;;; ret None) w'
       end.

Definition move_offline_experiment (offline_uuid server_uuid : string) : M unit :=
  rename (OfflinePath offline_uuid) (RunPath server_uuid).

(** The loop of [register_offline_experiments]; [experiment.uuid] on [None]
    is an [AttributeError]. *)
Fixpoint register_offline_experiments_loop (project : Project.t)
    (offline_experiments_ids : list string) (result : list Experiment.t)
    : M (list Experiment.t) :=
  match offline_experiments_ids with
  | [] => ret result
  | experiment_uuid :: ids =>
      let! experiment := register_offline_experiment project in
      match experiment with
      | None => raise AttributeError
      | Some experiment =>
          move_offline_experiment experiment_uuid (Experiment.uuid experiment) ;;;
          print stdout (OfflineExperimentRegistered experiment_uuid
                          (get_qualified_name experiment)) ;;;
          register_offline_experiments_loop project ids (result ++ [experiment])
      end
  end.

Definition register_offline_experiments (project : Project.t)
    (offline_experiments_ids : list string) : M (list Experiment.t) :=
  register_offline_experiments_loop project offline_experiments_ids [].

Definition references_offline_experiment (w : World) (name : string) : bool :=
  is_valid_uuid name && bool_decide (is_Some (run_dir (OfflinePath name) w)).

(** [iterdir] on a folder that is missing raises [FileNotFoundError], an
    [OSError]; on a folder that is there it lists directories and plain
    files alike, and the loop keeps every name that parses as a UUID. *)
Definition get_offline_experiments_ids (folder : offline_folder) (w : World)
    : result (list string) :=
  match folder with
  | NoOfflineFolder => Raise OSError
  | OfflineFolder files =>
      Ok (List.filter is_valid_uuid ((map_to_list (offline_runs w)).*1 ++ files))
  end.

Definition sync_selected_experiments (project_name : option string)
    (experiment_names : list string) : M unit :=
  λ w,
    let f := references_offline_experiment w in
    let offline_experiment_ids := List.filter f experiment_names in
    let other_experiment_names := List.filter (λ n, negb (f n)) experiment_names in
    (let! other_experiment_names :=
       match offline_experiment_ids with
       | [] => ret other_experiment_names
       | _ :: _ =>
           let! project := get_project project_name in
           match project with
           | Some project =>
               let! registered_experiments :=
                 register_offline_experiments project offline_experiment_ids in
               ret (other_experiment_names ++ map get_qualified_name registered_experiments)
           | None => ret other_experiment_names
           end
       end in
     sync_selected_registered_experiments other_experiment_names) w.

Definition sync_all_experiments (folder : offline_folder)
    (project_name : option string) : M unit :=
  λ w,
    match get_offline_experiments_ids folder w with
    | Raise e => (w, Raise e)
    | Ok offline_experiment_ids =>
        (match offline_experiment_ids with
         | [] => ret tt
         | _ :: _ =>
             let! project := get_project project_name in
             match project with
             | Some project =>
                 let! _ := register_offline_experiments project offline_experiment_ids in
                 ret tt
             | None => ret tt
             end
         end ;;;
         sync_all_registered_experiments) w
    end.

End Sync.

(** ** Listing the experiments *)

Section Listing.
Context {B : Type} `{!NeptuneBackend B} `{!Runtime}.

(** [[experiment for experiment in map(get_experiment, uuids) if experiment]]:
    one lookup per name, in order; the lookups that return nothing are
    left out. *)
Fixpoint get_experiments (uuids : list string) : M B (list Experiment.t) :=
  match uuids with
  | [] => ret []
  | experiment_uuid :: uuids' =>
      let! experiment := get_experiment experiment_uuid in
      let! experiments := get_experiments uuids' in
      ret (match experiment with
           | Some experiment => experiment :: experiments
           | None => experiments
           end)
  end.

(** [partition_experiments] over a given listing of the base directory:
    the loop sorts the names that parse as a UUID by
    [is_experiment_synced], then the two comprehensions look them up, the
    synchronised ones first. *)
Definition partition_experiments_over (entries : list string)
    : M B (list Experiment.t * list Experiment.t) :=
  λ w,
    let experiment_uuids := List.filter is_valid_uuid entries in
    let synced_experiment_uuids :=
      List.filter (λ n, is_experiment_synced (RunPath n) w) experiment_uuids in
    let unsynced_experiment_uuids :=
      List.filter (λ n, negb (is_experiment_synced (RunPath n) w)) experiment_uuids in
    (let! synced_experiments := get_experiments synced_experiment_uuids in
     let! unsynced_experiments := get_experiments unsynced_experiment_uuids in
     ret (synced_experiments, unsynced_experiments)) w.

Definition partition_experiments : M B (list Experiment.t * list Experiment.t) :=
  λ w, partition_experiments_over (iterdir w) w.

End Listing.

(** ** Notions the statements are written in *)

(** The calls to [execute_operations] and the offsets written, as they
    appear in a trace. *)
Definition executed (t : list event) : list (UUID * list Operation) :=
  omap (λ ev, match ev with
              | ExecuteOperationsCall u ops => Some (u, ops)
              | _ => None
              end) t.

Definition written (t : list event) : list (path * Z) :=
  omap (λ ev, match ev with
              | OffsetWritten p v => Some (p, v)
              | _ => None
              end) t.

(** The batches a fresh reader hands out, one [get_batch] after the other,
    up to the first empty one. *)
Equations? batches (size : nat) (disk_queue : list VersionedOperation)
    : list (list VersionedOperation) by wf (length disk_queue) lt :=
  batches size disk_queue with inspect (get_batch size disk_queue) := {
    | exist _ ([], _) _ => []
    | exist _ (first :: rest, disk_queue') Hbatch =>
        (first :: rest) :: batches size disk_queue' }.
Proof.
  unfold get_batch in Hbatch; injection Hbatch as Hfirst Hrest; subst disk_queue'.
  destruct size as [|size]; [discriminate|].
  destruct disk_queue as [|o disk_queue]; [discriminate|].
  rewrite length_skipn; simpl; lia.
Qed.

(** The batches that go to the backend when every call is accepted. *)
Fixpoint plan (sync_offset : Z) (bs : list (list VersionedOperation))
    : list (list VersionedOperation) :=
  match bs with
  | [] => []
  | [] :: _ => []
  | (first :: rest) :: bs' =>
      match unsent sync_offset first rest with
      | None => plan sync_offset bs'
      | Some batch => batch :: plan (last_version batch) bs'
      end
  end.

(** The two events of a batch that is sent and accepted. *)
Definition send_events (p : path) (u : UUID) (batch : list VersionedOperation)
    : list event :=
  [ExecuteOperationsCall u (map op batch); OffsetWritten p (last_version batch)].

Definition newer (k : Z) (o : VersionedOperation) : bool := (version o >? k)%Z.

(** From each batch the records newer than [k]; batches left empty are
    dropped. *)
Definition newer_batches (k : Z) (bs : list (list VersionedOperation))
    : list (list VersionedOperation) :=
  List.filter (λ b, negb (Nat.eqb (length b) 0)) (map (List.filter (newer k)) bs).

Fixpoint strictly_increasing (q : list VersionedOperation) : bool :=
  match q with
  | [] => true
  | a :: q' =>
      match q' with
      | [] => true
      | b :: _ => (version a <? version b)%Z && strictly_increasing q'
      end
  end.

(** The versions grow strictly along the queue. *)
Definition increasing (q : list VersionedOperation) : Prop :=
  StronglySorted (λ a b, (version a < version b)%Z) q.

Definition with_offset (o : option Z) (d : RunDir) : RunDir :=
  match o with
  | Some v => mkRunDir (queue d) (Some v)
  | None => d
  end.

(** A set of backend states in which every [execute_operations] is
    accepted, and which no such call leaves. *)
Definition accepting {B} `{!NeptuneBackend B} (I : B → Prop) : Prop :=
  ∀ b u ops, I b → ∃ b', execute_operations b u ops = (b', Ok tt) ∧ I b'.

(** The sentence of the specification on [is_synchronized], word for word:
    the offset equals the version of the last record of the queue, or the
    queue is empty and there is no offset. *)
Definition is_synchronized_spec {B} (p : path) (w : World B) : Prop :=
  (∃ o, last (DiskQueue p w) = Some o ∧ sync_offset_file_read p w = Some (version o)) ∨
  (DiskQueue p w = [] ∧ sync_offset_file_read p w = None).

(** One pass after the other on the same experiment, whatever the outcome
    of each: a pass that raised is followed by a restart. *)
Fixpoint sync_repeatedly {B} `{!NeptuneBackend B} `{!Runtime} (n : nat)
    (p : path) (qn : string) (w : World B) : World B :=
  match n with
  | O => w
  | S n' => sync_repeatedly n' p qn (sync_experiment p qn w).1
  end.

(** The name [get_project] looks up: the flag unless it is missing or
    empty, the environment variable otherwise; [None] when that is
    missing or empty too. *)
Definition chosen_project_name {B} (project_name_flag : option string)
    (w : World B) : option string :=
  let nonempty (o : option string) :=
    match o with
    | Some n => if bool_decide (n = "") then None else Some n
    | None => None
    end in
  match nonempty project_name_flag with
  | Some n => Some n
  | None => nonempty (project_env w)
  end.

(** The events of a registration that went through: the call that creates
    the experiment, the move of its directory, the notice. *)
Definition registration_events (project : Project.t) (ie : string * Experiment.t)
    : list event :=
  [CreateExperimentCall (Project.uuid project);
   Renamed (OfflinePath ie.1) (RunPath (Experiment.uuid ie.2));
   Printed stdout (OfflineExperimentRegistered ie.1 (get_qualified_name ie.2))].

(** The events of a lookup: the call and the warning it may print. *)
Definition is_lookup_event (ev : event) : bool :=
  match ev with
  | GetExperimentCall _ => true
  | Printed stderr (GetExperimentWarning _ _ _) => true
  | _ => false
  end.

Definition looked_up (t : list event) : list string :=
  omap (λ ev, match ev with GetExperimentCall i => Some i | _ => None end) t.

(** The calls to [create_experiment], as they appear in a trace. *)
Definition created (t : list event) : list string :=
  omap (λ ev, match ev with CreateExperimentCall u => Some u | _ => None end) t.

(** The first sentence of the specification on the selected references,
    read on what a run leaves behind: the references that parse as a UUID
    and name a directory of the offline folder are the ones that go to the
    registration, one [create_experiment] each. *)
Definition offline_routing_spec {B} `{!Runtime} (experiment_names : list string)
    (w w' : World B) : Prop :=
  length (created (trace w')) =
  length (created (trace w)) +
  length (List.filter (references_offline_experiment w) experiment_names).

(** ** A scripted backend

    A backend whose answers are written down in advance; the examples and
    the closed instances of the theorems run the program against it. *)

Record MockBackend := mkMockBackend {
  known_experiments : list (string * Experiment.t);
  lookup_failures : list (string * exn);
  known_projects : list (string * Project.t);
  create_script : list (result ApiExperiment.t);
  execute_script : list (result unit);
}.

Definition assoc {A} (k : string) (l : list (string * A)) : option A :=
  snd <$> List.find (λ kv, String.eqb k (fst kv)) l.

#[export] Instance mock_backend : NeptuneBackend MockBackend := {
  getExperiment b experimentId :=
    (b, match assoc experimentId (lookup_failures b) with
        | Some e => Raise e
        | None =>
            match assoc experimentId (known_experiments b) with
            | Some experiment => Ok experiment
            | None => Raise (HTTPError 404)
            end
        end);
  backend_get_project b project_name :=
    (b, match assoc project_name (known_projects b) with
        | Some project => Ok project
        | None => Raise ProjectNotFound
        end);
  create_experiment b project_uuid :=
    match create_script b with
    | [] => (b, Raise (OtherError "no more answers"))
    | r :: script =>
        (mkMockBackend (known_experiments b) (lookup_failures b) (known_projects b)
                       script (execute_script b), r)
    end;
  execute_operations b experiment_uuid ops :=
    match execute_script b with
    | [] => (b, Ok tt)
    | r :: script =>
        (mkMockBackend (known_experiments b) (lookup_failures b) (known_projects b)
                       (create_script b) script, r)
    end;
}.

(** A stand-in for [uuid.UUID]: the 36 characters of the canonical form. *)
#[export] Instance mock_runtime : Runtime := {
  uuid_UUID val := if Nat.eqb (String.length val) 36 then Some val else None;
}.

Definition vop (v : Z) : VersionedOperation :=
  mkVersionedOperation ("op" +:+ pretty v) v.

Definition run_a : string := "a1561719-b425-4000-a65a-b5efb044d6bb".
Definition run_b : string := "b2672820-c536-4111-b76b-c6f0c155e7cc".

Definition quiet_backend : MockBackend := mkMockBackend [] [] [] [] [].

Definition world_of (b : MockBackend) (rs offl : list (string * RunDir)) : World MockBackend :=
  mkWorld b (list_to_map rs) (list_to_map offl) None [].

Definition five_records : list VersionedOperation := map vop [1; 2; 3; 4; 5]%Z.

(** Five records, nothing acknowledged yet. *)
Definition fresh_world : World MockBackend :=
  world_of quiet_backend [(run_a, mkRunDir five_records None)] [].

(** Five records, the first two acknowledged. *)
Definition resumed_world : World MockBackend :=
  world_of quiet_backend [(run_a, mkRunDir five_records (Some 2%Z))] [].

(** An experiment that never logged anything. *)
Definition never_logged_world : World MockBackend :=
  world_of quiet_backend [(run_a, mkRunDir [] None)] [].

(** A queue one record longer than a batch, and a backend that accepts
    the first call, raises on the second and accepts from then on. *)
Definition long_queue : list VersionedOperation :=
  map (λ n, vop (Z.of_nat n)) (seq 1 1001).

Definition flaky_backend : MockBackend :=
  mkMockBackend [] [] [] [] [Ok tt; Raise (OtherError "503")].

Definition flaky_world : World MockBackend :=
  world_of flaky_backend [(run_a, mkRunDir long_queue None)] [].

(** Two offline experiments, and a backend on which the first
    [create_experiment] raises and the second would succeed. *)
Definition demo_project : Project.t := Project.mk "p-uuid" "workspace" "project".

Definition server_uuid : string := "c3783931-d647-4222-c87c-d7a1d266f8dd".

Definition refusing_backend : MockBackend :=
  mkMockBackend [] [] [("workspace/project", demo_project)]
                [Raise (OtherError "503"); Ok (ApiExperiment.mk server_uuid "NPT-1")] [].

Definition offline_world : World MockBackend :=
  world_of refusing_backend []
           [(run_a, mkRunDir five_records None); (run_b, mkRunDir five_records None)].

(** A backend on which the lookup of [run_a] is forbidden. *)
Definition forbidding_backend : MockBackend :=
  mkMockBackend [] [(run_a, HTTPError 403)] [] [] [].

Definition forbidden_world : World MockBackend :=
  world_of forbidding_backend [(run_a, mkRunDir five_records None)] [].

(** A backend on which the lookup of [run_a] does not get through. *)
Definition unreachable_backend : MockBackend :=
  mkMockBackend [] [(run_a, OtherError "connection refused")] [] [] [].

Definition unreachable_world : World MockBackend :=
  world_of unreachable_backend [(run_a, mkRunDir five_records None)] [].

(** Five records, all acknowledged. *)
Definition synced_world : World MockBackend :=
  world_of quiet_backend [(run_a, mkRunDir five_records (Some 5%Z))] [].

Definition demo_experiment : Experiment.t :=
  Experiment.mk run_a "NPT-1" "workspace" "project".

(** Two experiments to synchronise, and a backend that knows the first
    and raises on the first [execute_operations]. *)
Definition failing_backend : MockBackend :=
  mkMockBackend [(run_a, demo_experiment)] [] [] [] [Raise (OtherError "503")].

Definition failing_world : World MockBackend :=
  world_of failing_backend
           [(run_a, mkRunDir five_records None); (run_b, mkRunDir five_records None)] [].

(** Two offline experiments, and a backend that creates both. *)
Definition server_uuid_2 : string := "d4894a42-e758-4333-d98d-e8b2e377a9ee".

Definition welcoming_backend : MockBackend :=
  mkMockBackend [] [] [("workspace/project", demo_project)]
                [Ok (ApiExperiment.mk server_uuid "NPT-1");
                 Ok (ApiExperiment.mk server_uuid_2 "NPT-2")] [].

Definition welcoming_world : World MockBackend :=
  world_of welcoming_backend []
           [(run_a, mkRunDir five_records None); (run_b, mkRunDir [] (Some 7%Z))].

Section Theory.
Context {B : Type} `{!NeptuneBackend B} `{!Runtime}.

Lemma sync_loop_eq size p u qn dq so (w : World B) :
  sync_loop size p u qn dq so w =
  match firstn size dq with
  | [] => print stdout (SynchronizationCompleted qn) w
  | first :: rest =>
      match unsent so first rest with
      | None => sync_loop size p u qn (skipn size dq) so w
      | Some batch =>
          match send p u batch w with
          | (w', Raise e) => (w', Raise e)
          | (w', Ok _) => sync_loop size p u qn (skipn size dq) (last_version batch) w'
          end
      end
  end.
Proof.
  rewrite sync_loop_unfold_eq at 1. unfold sync_loop_unfold.
  destruct (inspect (get_batch size dq)) as [[batch dq'] Hbatch].
  assert (take size dq = batch ∧ drop size dq = dq') as [Hb Hd]
    by (unfold get_batch in Hbatch; by inversion Hbatch).
  rewrite Hb, Hd. clear Hb Hd.
  destruct batch as [|first rest]; simpl; [done|].
  destruct (unsent so first rest) as [batch|]; simpl; [|done].
  by destruct (send p u batch w) as [w' [[]|e]].
Qed.

Lemma batches_eq size dq :
  batches size dq =
  match firstn size dq with
  | [] => []
  | first :: rest => (first :: rest) :: batches size (skipn size dq)
  end.
Proof.
  rewrite batches_equation_1.
  destruct (inspect (get_batch size dq)) as [[batch dq'] Hbatch].
  assert (take size dq = batch ∧ drop size dq = dq') as [Hb Hd]
    by (unfold get_batch in Hbatch; by inversion Hbatch).
  rewrite Hb, Hd. by destruct batch.
Qed.

Lemma drop_shorter {A} size (l : list A) first rest :
  take size l = first :: rest → length (drop size l) < length l.
Proof.
  intros Htake. destruct size; [done|]. destruct l; [done|].
  rewrite length_drop. simpl. lia.
Qed.

Lemma sync_loop_process size p u qn dq so (w : World B) :
  sync_loop size p u qn dq so w = process p u qn (batches size dq) so w.
Proof.
  remember (length dq) as n eqn:Hn. revert dq Hn so w.
  induction n as [n IH] using lt_wf_ind. intros dq -> so w.
  rewrite sync_loop_eq, batches_eq.
  destruct (take size dq) as [|first rest] eqn:Htake; [done|]. simpl.
  pose proof (drop_shorter _ _ _ _ Htake) as Hlt.
  destruct (unsent so first rest) as [batch|]; [|by eapply IH].
  destruct (send p u batch w) as [w' [[]|e]]; [|done]. by eapply IH.
Qed.

Lemma concat_batches size dq : 0 < size → concat (batches size dq) = dq.
Proof.
  intros Hsize. remember (length dq) as n eqn:Hn. revert dq Hn.
  induction n as [n IH] using lt_wf_ind. intros dq ->.
  rewrite batches_eq.
  destruct (take size dq) as [|first rest] eqn:Htake.
  - destruct size; [lia|]. by destruct dq.
  - simpl. rewrite (IH _ (drop_shorter _ _ _ _ Htake) _ eq_refl).
    change (first :: rest ++ drop size dq) with ((first :: rest) ++ drop size dq).
    rewrite <- Htake. apply take_drop.
Qed.

Lemma batches_nonempty size dq : Forall (λ b, b ≠ []) (batches size dq).
Proof.
  remember (length dq) as n eqn:Hn. revert dq Hn.
  induction n as [n IH] using lt_wf_ind. intros dq ->.
  rewrite batches_eq.
  destruct (take size dq) as [|first rest] eqn:Htake; [constructor|].
  constructor; [done|]. by eapply IH, eq_refl; eapply drop_shorter.
Qed.

(** *** The world under the primitive operations *)

Lemma run_dir_record p ev (w : World B) : run_dir p (record ev w) = run_dir p w.
Proof. by destruct p. Qed.

Lemma run_dir_with_backend p b (w : World B) : run_dir p (with_backend b w) = run_dir p w.
Proof. by destruct p. Qed.

Lemma run_dir_set_run_dir p d (w : World B) : run_dir p (set_run_dir p d w) = d.
Proof. destruct p; simpl; apply lookup_partial_alter_eq. Qed.

Lemma run_dir_set_run_dir_ne p p' d (w : World B) :
  p' ≠ p → run_dir p' (set_run_dir p d w) = run_dir p' w.
Proof.
  intros Hne. destruct p, p'; simpl; try done;
    apply lookup_partial_alter_ne; congruence.
Qed.

Lemma run_dir_set_offset p o (w : World B) :
  run_dir p (set_sync_offset_file p o w) = (λ d, mkRunDir (queue d) o) <$> run_dir p w.
Proof.
  unfold set_sync_offset_file. destruct (run_dir p w) as [d|] eqn:Hd; simpl.
  - apply run_dir_set_run_dir.
  - by rewrite Hd.
Qed.

Lemma run_dir_set_offset_ne p p' o (w : World B) :
  p' ≠ p → run_dir p' (set_sync_offset_file p o w) = run_dir p' w.
Proof.
  intros Hne. unfold set_sync_offset_file.
  destruct (run_dir p w); [|done]. by apply run_dir_set_run_dir_ne.
Qed.

Lemma trace_set_offset p o (w : World B) : trace (set_sync_offset_file p o w) = trace w.
Proof. unfold set_sync_offset_file. destruct (run_dir p w); [|done]. by destruct p. Qed.

Lemma backend_set_offset p o (w : World B) :
  backend (set_sync_offset_file p o w) = backend w.
Proof. unfold set_sync_offset_file. destruct (run_dir p w); [|done]. by destruct p. Qed.

Lemma project_env_set_offset p o (w : World B) :
  project_env (set_sync_offset_file p o w) = project_env w.
Proof. unfold set_sync_offset_file. destruct (run_dir p w); [|done]. by destruct p. Qed.

(** What one [send] does, by the answer of the backend. *)
Lemma send_eq p u batch (w : World B) :
  send p u batch w =
  let ev := ExecuteOperationsCall u (map op batch) in
  match execute_operations (backend w) u (map op batch) with
  | (b', Ok _) =>
      (set_sync_offset_file p (Some (last_version batch))
         (record (OffsetWritten p (last_version batch))
            (with_backend b' (record ev w))), Ok tt)
  | (b', Raise e) => (with_backend b' (record ev w), Raise e)
  end.
Proof.
  unfold send, bind, call, sync_offset_file_write. simpl.
  by destruct (execute_operations _ _ _) as [b' [[]|e]].
Qed.

Lemma with_offset_last v vs d :
  with_offset (last vs) (mkRunDir (queue d) (Some v)) = with_offset (last (v :: vs)) d.
Proof. rewrite last_cons. by destruct (last vs). Qed.

(** *** One pass, batch by batch *)

(** What a pass leaves behind: the batches it sent are an initial part of
    the plan, only the offset file of the experiment changes and it holds
    the last version written, and the trace is that of the accepted
    batches followed by the completion notice or by the call that raised. *)
Lemma process_spec p u qn bs : ∀ so (w w' : World B) r,
  process p u qn bs so w = (w', r) →
  ∃ sent,
    project_env w' = project_env w ∧
    (∀ p', p' ≠ p → run_dir p' w' = run_dir p' w) ∧
    run_dir p w' = with_offset (last (map last_version sent)) <$> run_dir p w ∧
    match r with
    | Ok _ =>
        sent = plan so bs ∧
        trace w' = trace w ++ flat_map (send_events p u) sent
                           ++ [Printed stdout (SynchronizationCompleted qn)]
    | Raise e =>
        ∃ failed,
          (sent ++ [failed]) `prefix_of` plan so bs ∧
          trace w' = trace w ++ flat_map (send_events p u) sent
                             ++ [ExecuteOperationsCall u (map op failed)]
    end.
Proof.
  assert (Hstop : ∀ so bs' (w w' : World B) r,
    print stdout (SynchronizationCompleted qn) w = (w', r) →
    plan so bs' = [] →
    ∃ sent,
      project_env w' = project_env w ∧
      (∀ p', p' ≠ p → run_dir p' w' = run_dir p' w) ∧
      run_dir p w' = with_offset (last (map last_version sent)) <$> run_dir p w ∧
      match r with
      | Ok _ =>
          sent = plan so bs' ∧
          trace w' = trace w ++ flat_map (send_events p u) sent
                             ++ [Printed stdout (SynchronizationCompleted qn)]
      | Raise e =>
          ∃ failed,
            (sent ++ [failed]) `prefix_of` plan so bs' ∧
            trace w' = trace w ++ flat_map (send_events p u) sent
                               ++ [ExecuteOperationsCall u (map op failed)]
      end).
  { intros so bs' w w' r Hp Hplan. inversion Hp; subst. exists []. simpl.
    split_and!; try done.
    rewrite run_dir_record. by destruct (run_dir p w). }
  induction bs as [|b bs IH]; intros so w w' r Hp; simpl in Hp.
  { by eapply Hstop. }
  destruct b as [|first rest].
  { by eapply Hstop. }
  simpl. destruct (unsent so first rest) as [batch|] eqn:Hunsent; [|by apply IH].
  rewrite send_eq in Hp. simpl in Hp.
  destruct (execute_operations (backend w) u (map op batch)) as [b' [[]|e]].
  - apply IH in Hp as (sent & Henv & Hframe & Hdir & Hr).
    exists (batch :: sent). split_and!.
    + by rewrite Henv, project_env_set_offset.
    + intros p' Hne. rewrite (Hframe p' Hne), run_dir_set_offset_ne by done.
      by rewrite run_dir_record, run_dir_with_backend, run_dir_record.
    + rewrite Hdir, run_dir_set_offset, run_dir_record, run_dir_with_backend,
        run_dir_record.
      destruct (run_dir p w) as [d|]; [|done]. simpl.
      by rewrite with_offset_last.
    + rewrite trace_set_offset in Hr. simpl in Hr.
      destruct r as [[]|e].
      * destruct Hr as [-> ->]. split; [done|].
        by rewrite <- !app_assoc.
      * destruct Hr as (failed & Hpre & ->). exists failed. split.
        -- by apply prefix_cons.
        -- by rewrite <- !app_assoc.
  - inversion Hp; subst. exists []. split_and!; try done.
    + rewrite run_dir_with_backend, run_dir_record. by destruct (run_dir p w).
    + exists batch. split; [|done]. apply prefix_cons, prefix_nil.
Qed.

(** *** Queues whose versions grow strictly *)

Lemma strictly_increasing_increasing q : strictly_increasing q = true → increasing q.
Proof.
  intros Hq. apply Sorted_StronglySorted.
  { intros a b c ??. lia. }
  induction q as [|a [|b q] IH]; [constructor|by repeat constructor|].
  simpl in Hq. apply andb_prop in Hq as [Hab Hq].
  constructor; [by apply IH|]. constructor. lia.
Qed.

Lemma filter_newer_all k l :
  Forall (λ o, (k < version o)%Z) l → List.filter (newer k) l = l.
Proof.
  induction 1 as [|o l Ho _ IH]; [done|]. simpl. unfold newer at 1.
  destruct (Z.gtb_spec (version o) k); [by rewrite IH|lia].
Qed.

Lemma filter_newer_none k l :
  Forall (λ o, (version o ≤ k)%Z) l → List.filter (newer k) l = [].
Proof.
  induction 1 as [|o l Ho _ IH]; [done|]. simpl. unfold newer at 1.
  destruct (Z.gtb_spec (version o) k); [lia|done].
Qed.

Lemma filter_newer_elem k l o :
  o ∈ List.filter (newer k) l ↔ o ∈ l ∧ (k < version o)%Z.
Proof.
  rewrite !list_elem_of_In, filter_In. unfold newer.
  by destruct (Z.gtb_spec (version o) k); intuition lia.
Qed.

Lemma last_elem (l : list VersionedOperation) d : l ≠ [] → List.last l d ∈ l.
Proof.
  induction l as [|a [|b l] IH]; intros Hl; [done|left|].
  right. by apply IH.
Qed.

Lemma last_version_elem batch :
  batch ≠ [] → ∃ o, o ∈ batch ∧ last_version batch = version o.
Proof. intros Hb. eexists. split; [by apply last_elem|done]. Qed.

Lemma increasing_le_last l d x :
  increasing l → x ∈ l → (version x ≤ version (List.last l d))%Z.
Proof.
  intros Hl. revert x. induction l as [|a [|b l] IH]; intros x Hx.
  - by apply elem_of_nil in Hx.
  - apply list_elem_of_singleton in Hx as ->. simpl. lia.
  - apply StronglySorted_cons in Hl as [Ha Hl].
    change (List.last (a :: b :: l) d) with (List.last (b :: l) d).
    apply elem_of_cons in Hx as [->|Hx]; [|by apply IH].
    apply Forall_cons in Ha as [Hab _].
    specialize (IH Hl b (list_elem_of_here _ _)). lia.
Qed.

Lemma first_newer_increasing so batch :
  increasing batch →
  first_newer so batch =
  match List.filter (newer so) batch with [] => None | l => Some l end.
Proof.
  induction batch as [|a batch IH]; intros Hb; [done|].
  apply StronglySorted_cons in Hb as [Ha Hb]. simpl. unfold newer at 1.
  destruct (Z.gtb_spec (version a) so) as [Hgt|Hle]; [|by apply IH].
  rewrite filter_newer_all; [done|].
  eapply Forall_impl; [exact Ha|]. simpl. intros. lia.
Qed.

(** On a batch whose versions grow, the three branches of the loop select
    the records newer than the offset. *)
Lemma unsent_increasing so first rest :
  increasing (first :: rest) →
  unsent so first rest =
  match List.filter (newer so) (first :: rest) with [] => None | l => Some l end.
Proof.
  intros Hb. unfold unsent.
  destruct (Z.gtb_spec (version first) so) as [Hgt|Hle].
  - rewrite filter_newer_all; [done|].
    pose proof Hb as [Ha _]%StronglySorted_cons.
    constructor; [lia|]. eapply Forall_impl; [exact Ha|]. simpl. intros. lia.
  - destruct (Z.leb_spec (version (List.last (first :: rest) first)) so) as [Hlast|Hlast].
    + rewrite filter_newer_none; [done|].
      apply Forall_forall. intros x Hx.
      pose proof (increasing_le_last _ first x Hb Hx). lia.
    + rewrite first_newer_increasing by done.
      destruct (List.filter (newer so) (first :: rest)) eqn:Hf; [|done].
      assert (List.last (first :: rest) first ∈ List.filter (newer so) (first :: rest)) as Hin.
      { apply filter_newer_elem. split; [by apply last_elem|lia]. }
      rewrite Hf in Hin. by apply elem_of_nil in Hin.
Qed.

Lemma increasing_last_version_lt b bs :
  b ≠ [] → increasing (b ++ concat bs) →
  Forall (λ o, (last_version b < version o)%Z) (concat bs).
Proof.
  intros Hb Hinc. destruct (last_version_elem b Hb) as (o & Ho & ->).
  apply Forall_forall. intros x Hx.
  by eapply (StronglySorted_app_1_elem_of _ _ _ _ _ Hinc).
Qed.

(** Once every record left is newer than the offset, every batch is sent
    whole. *)
Lemma plan_all_newer bs : ∀ so,
  Forall (λ b, b ≠ []) bs → increasing (concat bs) →
  Forall (λ o, (so < version o)%Z) (concat bs) →
  plan so bs = bs.
Proof.
  induction bs as [|b bs IH]; intros so Hne Hinc Hnew; [done|].
  apply Forall_cons in Hne as [Hb Hne]. simpl in Hinc, Hnew.
  destruct b as [|first rest]; [done|].
  apply Forall_app in Hnew as [Hnewb _].
  pose proof Hnewb as [Hfirst _]%Forall_cons.
  simpl. unfold unsent.
  destruct (Z.gtb_spec (version first) so); [|lia].
  f_equal. apply IH; [done|by eapply StronglySorted_app_1_r|].
  by apply increasing_last_version_lt.
Qed.

Lemma newer_batches_cons k b bs :
  newer_batches k (b :: bs) =
  match List.filter (newer k) b with
  | [] => newer_batches k bs
  | l => l :: newer_batches k bs
  end.
Proof.
  unfold newer_batches. cbn [map List.filter].
  by destruct (List.filter (newer k) b).
Qed.

Lemma newer_batches_all k bs :
  Forall (λ b, b ≠ []) bs → Forall (λ o, (k < version o)%Z) (concat bs) →
  newer_batches k bs = bs.
Proof.
  induction bs as [|b bs IH]; intros Hne Hnew; [done|].
  apply Forall_cons in Hne as [Hb Hne]. simpl in Hnew.
  apply Forall_app in Hnew as [Hnewb Hnew].
  rewrite newer_batches_cons, (filter_newer_all k b Hnewb), IH by done.
  by destruct b.
Qed.

(** On a queue whose versions grow, the plan is: of every batch, the
    records newer than the starting offset. *)
Lemma plan_increasing k bs :
  Forall (λ b, b ≠ []) bs → increasing (concat bs) →
  plan k bs = newer_batches k bs.
Proof.
  induction bs as [|b bs IH]; intros Hne Hinc; [done|].
  apply Forall_cons in Hne as [Hb Hne]. simpl in Hinc.
  destruct b as [|first rest]; [done|].
  pose proof (StronglySorted_app_1_l _ _ _ Hinc) as Hincb.
  pose proof (StronglySorted_app_1_r _ _ _ Hinc) as Hincbs.
  simpl plan. rewrite (unsent_increasing k first rest Hincb), newer_batches_cons.
  destruct (List.filter (newer k) (first :: rest)) as [|o l] eqn:Hf.
  - by apply IH.
  - f_equal.
    assert (Hsub : ∀ x, x ∈ o :: l → x ∈ first :: rest ∧ (k < version x)%Z).
    { intros x Hx. rewrite <- Hf in Hx. by apply filter_newer_elem. }
    destruct (last_version_elem (o :: l)) as (o' & Ho' & Hlv); [done|].
    destruct (Hsub _ Ho') as [Hin Hk].
    assert (Forall (λ x, (version o' < version x)%Z) (concat bs)) as Hnew.
    { apply Forall_forall. intros x Hx.
      by eapply (StronglySorted_app_1_elem_of _ _ _ _ _ Hinc). }
    rewrite Hlv, plan_all_newer by done.
    symmetry. apply newer_batches_all; [done|].
    eapply Forall_impl; [exact Hnew|]. simpl. intros. lia.
Qed.

Lemma concat_newer_batches k bs :
  concat (newer_batches k bs) = List.filter (newer k) (concat bs).
Proof.
  induction bs as [|b bs IH]; [done|].
  rewrite newer_batches_cons. cbn [concat]. rewrite List.filter_app, <- IH.
  by destruct (List.filter (newer k) b).
Qed.

Lemma newer_batches_newer k bs :
  Forall (Forall (λ o, (k < version o)%Z)) (newer_batches k bs).
Proof.
  unfold newer_batches. apply Forall_forall. intros b Hb.
  apply list_elem_of_In, filter_In in Hb as [Hb _].
  apply in_map_iff in Hb as (b' & <- & _).
  apply Forall_forall. intros o Ho. by apply filter_newer_elem in Ho as [_ ?].
Qed.

Lemma filter_newer_split k acknowledged pending :
  Forall (λ o, (version o ≤ k)%Z) acknowledged →
  Forall (λ o, (k < version o)%Z) pending →
  List.filter (newer k) (acknowledged ++ pending) = pending.
Proof.
  intros Ha Hp. by rewrite List.filter_app, filter_newer_none, filter_newer_all.
Qed.

(** *** A pass against a backend that accepts *)

Lemma process_accepting (I : B → Prop) p u qn bs : ∀ so (w : World B),
  accepting I → I (backend w) →
  ∃ w', process p u qn bs so w = (w', Ok tt) ∧ I (backend w').
Proof.
  induction bs as [|b bs IH]; intros so w Hacc Hw; simpl.
  { by eexists. }
  destruct b as [|first rest]; [by eexists|].
  destruct (unsent so first rest) as [batch|]; [|by apply IH].
  rewrite send_eq. simpl.
  destruct (Hacc (backend w) u (map op batch) Hw) as (b' & -> & Hb').
  apply IH; [done|]. by rewrite backend_set_offset.
Qed.

(** *** The traces of a pass *)

Lemma executed_app t1 t2 : executed (t1 ++ t2) = executed t1 ++ executed t2.
Proof. apply omap_app. Qed.

Lemma written_app t1 t2 : written (t1 ++ t2) = written t1 ++ written t2.
Proof. apply omap_app. Qed.

Lemma executed_send_events p u sent :
  executed (flat_map (send_events p u) sent) = map (λ b, (u, map op b)) sent.
Proof. induction sent as [|b sent IH]; [done|]. simpl. by rewrite IH. Qed.

Lemma written_send_events p u sent :
  written (flat_map (send_events p u) sent) = map (λ b, (p, last_version b)) sent.
Proof. induction sent as [|b sent IH]; [done|]. simpl. by rewrite IH. Qed.

Lemma sync_experiment_with_eq size p qn u (w : World B) :
  uuid_UUID (path_name p) = Some u →
  sync_experiment_with size p qn w =
  process p u qn (batches size (DiskQueue p w))
          (default 0%Z (sync_offset_file_read p w))
          (record (Printed stdout (Synchronising qn)) w).
Proof.
  intros Hu. unfold sync_experiment_with. rewrite Hu.
  unfold bind, print, emit. rewrite sync_loop_process.
  unfold DiskQueue, sync_offset_file_read. by rewrite run_dir_record.
Qed.

Lemma sync_pass_spec size p qn u (w w' : World B) r :
  uuid_UUID (path_name p) = Some u →
  sync_experiment_with size p qn w = (w', r) →
  ∃ sent,
    project_env w' = project_env w ∧
    (∀ p', p' ≠ p → run_dir p' w' = run_dir p' w) ∧
    run_dir p w' = with_offset (last (map last_version sent)) <$> run_dir p w ∧
    match r with
    | Ok _ =>
        sent = plan (default 0%Z (sync_offset_file_read p w))
                    (batches size (DiskQueue p w)) ∧
        trace w' = trace w ++ [Printed stdout (Synchronising qn)]
                           ++ flat_map (send_events p u) sent
                           ++ [Printed stdout (SynchronizationCompleted qn)]
    | Raise e =>
        ∃ failed,
          (sent ++ [failed]) `prefix_of`
             plan (default 0%Z (sync_offset_file_read p w))
                  (batches size (DiskQueue p w)) ∧
          trace w' = trace w ++ [Printed stdout (Synchronising qn)]
                             ++ flat_map (send_events p u) sent
                             ++ [ExecuteOperationsCall u (map op failed)]
    end.
Proof.
  intros Hu Hsync. rewrite (sync_experiment_with_eq _ _ _ u) in Hsync by done.
  apply process_spec in Hsync as (sent & Henv & Hframe & Hdir & Hr).
  exists sent. split_and!; try done.
  simpl in Hr. destruct r as [[]|e].
  - destruct Hr as [-> ->]. by rewrite <- !app_assoc.
  - destruct Hr as (failed & Hpre & ->). exists failed. by rewrite <- !app_assoc.
Qed.

(** The batches of a pass: those accepted and, if the pass was cut short,
    the one on which the backend raised. *)
Lemma sync_pass_dispatched size p qn u (w w' : World B) r :
  uuid_UUID (path_name p) = Some u →
  sync_experiment_with size p qn w = (w', r) →
  ∃ dispatched,
    executed (trace w') = executed (trace w) ++ map (λ b, (u, map op b)) dispatched ∧
    dispatched `prefix_of` plan (default 0%Z (sync_offset_file_read p w))
                                (batches size (DiskQueue p w)) ∧
    (r = Ok tt → dispatched = plan (default 0%Z (sync_offset_file_read p w))
                                   (batches size (DiskQueue p w))).
Proof.
  intros Hu Hsync.
  destruct (sync_pass_spec _ _ _ _ _ _ _ Hu Hsync) as (sent & _ & _ & _ & Hr).
  destruct r as [[]|e].
  - destruct Hr as [<- ->]. exists sent. split_and!; [|done..].
    rewrite !executed_app, executed_send_events. simpl. by rewrite app_nil_r.
  - destruct Hr as (failed & Hpre & ->). exists (sent ++ [failed]).
    split_and!; [|done..].
    rewrite !executed_app, executed_send_events, map_app. by simpl.
Qed.

Lemma sync_pass_accepted (I : B → Prop) size p qn (w : World B) :
  accepting I → I (backend w) →
  is_Some (uuid_UUID (path_name p)) →
  ∃ w', sync_experiment_with size p qn w = (w', Ok tt) ∧ I (backend w').
Proof.
  intros Hacc Hw [u Hu]. rewrite (sync_experiment_with_eq _ _ _ u) by done.
  by apply process_accepting.
Qed.

Lemma plan_batches_increasing size k q :
  0 < size → strictly_increasing q = true →
  plan k (batches size q) = newer_batches k (batches size q).
Proof.
  intros Hsize Hq. apply plan_increasing; [apply batches_nonempty|].
  rewrite concat_batches by done. by apply strictly_increasing_increasing.
Qed.

(** C3. On a queue whose versions grow strictly, a pass that starts at the
    persisted offset [k] hands to [execute_operations], batch by batch,
    exactly the records of the batch read whose version is greater than
    [k], in the order of the queue: no record with a version up to [k] is
    sent again.  A pass that is not cut short sends all of them, and an
    accepting backend never cuts it short; so after a crash that confirmed
    a prefix of the queue, the next pass sends the rest of the queue and
    nothing else. *)
Theorem sync_sends_unacknowledged_only p qn u q k (w w' : World B) r :
  uuid_UUID (path_name p) = Some u →
  DiskQueue p w = q →
  strictly_increasing q = true →
  default 0%Z (sync_offset_file_read p w) = k →
  sync_experiment p qn w = (w', r) →
  ∃ dispatched,
    executed (trace w') = executed (trace w) ++ map (λ b, (u, map op b)) dispatched ∧
    dispatched `prefix_of` newer_batches k (batches 1000 q) ∧
    Forall (Forall (λ o, (k < version o)%Z)) dispatched ∧
    (r = Ok tt → dispatched = newer_batches k (batches 1000 q)) ∧
    (∀ I, accepting I → I (backend w) → r = Ok tt) ∧
    (∀ acknowledged pending,
       r = Ok tt →
       q = acknowledged ++ pending →
       Forall (λ o, (version o ≤ k)%Z) acknowledged →
       Forall (λ o, (k < version o)%Z) pending →
       concat dispatched = pending).
Proof.
  intros Hu Hq Hinc Hk Hsync.
  destruct (sync_pass_dispatched _ _ _ _ _ _ _ Hu Hsync)
    as (dispatched & Hexec & Hpre & Hall).
  rewrite Hq, Hk, plan_batches_increasing in Hpre, Hall by (done || lia).
  exists dispatched. split_and!; [done|done| |done| |].
  - destruct Hpre as [more Hmore].
    pose proof (newer_batches_newer k (batches 1000 q)) as Hnew.
    rewrite Hmore in Hnew. by apply Forall_app in Hnew as [? _].
  - intros I Hacc Hw.
    destruct (sync_pass_accepted I 1000 p qn w Hacc Hw) as (w'' & Hok & _); [by eexists|].
    unfold sync_experiment in Hsync. congruence.
  - intros acknowledged pending Hr Hsplit Hack Hpend.
    rewrite (Hall Hr), concat_newer_batches, concat_batches by lia.
    rewrite Hsplit. by apply filter_newer_split.
Qed.

(** *** The offset a pass leaves behind *)

Lemma batches_nil size : batches size [] = [].
Proof. rewrite batches_eq. by destruct size. Qed.

Lemma plan_needs_dir size so p (w : World B) :
  plan so (batches size (DiskQueue p w)) ≠ [] → is_Some (run_dir p w).
Proof.
  unfold DiskQueue. destruct (run_dir p w); [by eexists|].
  simpl. by rewrite batches_nil.
Qed.


Lemma read_after_pass p o (w w' : World B) :
  run_dir p w' = with_offset o <$> run_dir p w →
  (is_Some o → is_Some (run_dir p w)) →
  sync_offset_file_read p w' =
  match o with Some v => Some v | None => sync_offset_file_read p w end.
Proof.
  intros Hdir Hsome. unfold sync_offset_file_read. rewrite Hdir.
  destruct o as [v|]; simpl.
  - destruct Hsome as [d ->]; [by eexists|]. done.
  - by destruct (run_dir p w).
Qed.

Lemma queue_after_pass p o (w w' : World B) :
  run_dir p w' = with_offset o <$> run_dir p w → DiskQueue p w' = DiskQueue p w.
Proof.
  intros Hdir. unfold DiskQueue. rewrite Hdir.
  destruct (run_dir p w); [|done]. by destruct o.
Qed.

Lemma prefix_nonempty {A} (l1 l2 : list A) : l1 `prefix_of` l2 → l1 ≠ [] → l2 ≠ [].
Proof. intros [k ->] Hl1. by destruct l1. Qed.


(** *** The offsets written *)

Lemma newer_batches_elem k bs l :
  l ∈ newer_batches k bs →
  l ≠ [] ∧ ∀ o, o ∈ l → o ∈ concat bs ∧ (k < version o)%Z.
Proof.
  unfold newer_batches. intros Hl.
  apply list_elem_of_In, filter_In in Hl as [Hl Hne].
  apply in_map_iff in Hl as (b & <- & Hb).
  split; [by destruct (List.filter (newer k) b)|].
  intros o [Ho Hk]%filter_newer_elem. split; [|done].
  apply list_elem_of_In, in_concat. exists b. split; [done|by apply list_elem_of_In].
Qed.

Lemma last_versions_newer k bs :
  Forall (λ v, (k < v)%Z) (map last_version (newer_batches k bs)).
Proof.
  apply Forall_forall. intros v Hv.
  apply list_elem_of_In, in_map_iff in Hv as (l & <- & Hl).
  apply list_elem_of_In, newer_batches_elem in Hl as [Hne Hl].
  destruct (last_version_elem l Hne) as (o & Ho & ->). by apply Hl.
Qed.

Lemma last_versions_sorted k bs :
  increasing (concat bs) →
  StronglySorted Z.lt (map last_version (newer_batches k bs)).
Proof.
  induction bs as [|b bs IH]; intros Hinc; [constructor|].
  simpl in Hinc. pose proof (StronglySorted_app_1_r _ _ _ Hinc) as Hincbs.
  rewrite newer_batches_cons.
  destruct (List.filter (newer k) b) as [|o l] eqn:Hf; [by apply IH|].
  simpl map. constructor; [by apply IH|].
  destruct (last_version_elem (o :: l)) as (o1 & Ho1 & ->); [done|].
  rewrite <- Hf in Ho1. apply filter_newer_elem in Ho1 as [Ho1 _].
  apply Forall_forall. intros v Hv.
  apply list_elem_of_In, in_map_iff in Hv as (l2 & <- & Hl2).
  apply list_elem_of_In, newer_batches_elem in Hl2 as [Hne Hl2].
  destruct (last_version_elem l2 Hne) as (o2 & Ho2 & ->).
  apply Hl2 in Ho2 as [Ho2 _].
  by eapply (StronglySorted_app_1_elem_of _ _ _ _ _ Hinc).
Qed.

Lemma list_last_Some {A} (l : list A) d v : last l = Some v → List.last l d = v.
Proof.
  induction l as [|a [|b l] IH]; intros Hl; [done|by injection Hl|].
  by apply IH.
Qed.

Lemma list_last_cons_default {A} (l : list A) a : List.last (a :: l) a = List.last l a.
Proof. by destruct l. Qed.

Lemma list_last_default {A} (l : list A) d d' :
  l ≠ [] → List.last l d = List.last l d'.
Proof.
  induction l as [|a [|b l] IH]; intros Hl; [done..|]. by apply IH.
Qed.

Lemma list_last_app {A} (l1 l2 : list A) d :
  List.last (l1 ++ l2) d = List.last l2 (List.last l1 d).
Proof.
  induction l1 as [|a l1 IH]; [done|].
  destruct l1 as [|b l1]; simpl app.
  - destruct l2 as [|c l2]; [done|].
    change (List.last (a :: c :: l2) d) with (List.last (c :: l2) d).
    by apply list_last_default.
  - change (List.last (a :: b :: l1) d) with (List.last (b :: l1) d).
    rewrite <- IH. done.
Qed.

Lemma sorted_le_last (l : list Z) d x :
  StronglySorted Z.lt l → x ∈ l → (x ≤ List.last l d)%Z.
Proof.
  intros Hl. revert x. induction l as [|a [|b l] IH]; intros x Hx.
  - by apply elem_of_nil in Hx.
  - apply list_elem_of_singleton in Hx as ->. simpl. lia.
  - apply StronglySorted_cons in Hl as [Ha Hl].
    change (List.last (a :: b :: l) d) with (List.last (b :: l) d).
    apply elem_of_cons in Hx as [->|Hx]; [|by apply IH].
    apply Forall_cons in Ha as [Hab _].
    specialize (IH Hl b (list_elem_of_here _ _)). lia.
Qed.

Lemma sorted_chain k vs1 vs2 :
  StronglySorted Z.lt (k :: vs1) →
  StronglySorted Z.lt (List.last vs1 k :: vs2) →
  StronglySorted Z.lt (k :: vs1 ++ vs2).
Proof.
  intros H1 H2. change (k :: vs1 ++ vs2) with ((k :: vs1) ++ vs2).
  apply StronglySorted_cons in H2 as [Hlast H2].
  apply StronglySorted_app_2; [|done..].
  intros x1 x2 Hx1 Hx2.
  pose proof (sorted_le_last _ k _ H1 Hx1) as Hle.
  rewrite list_last_cons_default in Hle.
  rewrite Forall_forall in Hlast. specialize (Hlast _ Hx2). lia.
Qed.

(** One pass: the offsets written grow strictly, the first is above the
    offset the pass started from, and the last is the one persisted. *)
Lemma sync_pass_written size p qn (w w' : World B) r :
  0 < size →
  strictly_increasing (DiskQueue p w) = true →
  sync_experiment_with size p qn w = (w', r) →
  ∃ vs,
    written (trace w') = written (trace w) ++ map (pair p) vs ∧
    StronglySorted Z.lt (default 0%Z (sync_offset_file_read p w) :: vs) ∧
    default 0%Z (sync_offset_file_read p w') =
      List.last vs (default 0%Z (sync_offset_file_read p w)) ∧
    DiskQueue p w' = DiskQueue p w.
Proof.
  intros Hsize Hinc Hsync.
  destruct (uuid_UUID (path_name p)) as [u|] eqn:Hu; cycle 1.
  { unfold sync_experiment_with in Hsync. rewrite Hu in Hsync.
    inversion Hsync; subst. exists []. simpl. rewrite app_nil_r.
    split_and!; try done. repeat constructor. }
  destruct (sync_pass_spec _ _ _ _ _ _ _ Hu Hsync)
    as (sent & _ & _ & Hdir & Hr).
  set (k := default 0%Z (sync_offset_file_read p w)) in *.
  assert (sent `prefix_of` newer_batches k (batches size (DiskQueue p w)) ∧
          written (trace w') = written (trace w) ++ map (pair p) (map last_version sent))
    as [Hpre Hwritten].
  { rewrite <- (plan_batches_increasing size k) by done.
    destruct r as [[]|e].
    - destruct Hr as [-> ->]. split; [done|].
      rewrite !written_app, written_send_events, map_map. simpl.
      by rewrite app_nil_r.
    - destruct Hr as (failed & Hpre & ->). split; [by eapply prefix_app_l|].
      rewrite !written_app, written_send_events, map_map. simpl.
      by rewrite app_nil_r. }
  exists (map last_version sent). split_and!; [done| | |by eapply queue_after_pass].
  - destruct Hpre as [more Hmore].
    pose proof (last_versions_newer k (batches size (DiskQueue p w))) as Hnew.
    pose proof (last_versions_sorted k (batches size (DiskQueue p w))) as Hsorted.
    rewrite Hmore, map_app in Hnew, Hsorted.
    apply Forall_app in Hnew as [Hnew _].
    apply StronglySorted_cons. split; [done|].
    eapply StronglySorted_app_1_l, Hsorted.
    rewrite concat_batches by done.
    by apply strictly_increasing_increasing.
  - rewrite (read_after_pass _ _ _ _ Hdir).
    + destruct (last (map last_version sent)) as [v|] eqn:Hlast.
      * by rewrite (list_last_Some _ _ _ Hlast).
      * apply last_None in Hlast. by rewrite Hlast.
    + intros [v Hv]. eapply (plan_needs_dir size k).
      rewrite (plan_batches_increasing size k) by done.
      eapply prefix_nonempty; [exact Hpre|].
      intros ->. done.
Qed.

(** C5. On a queue whose versions grow strictly, over any number of passes
    (each of which may be cut short by the backend and restarted), every
    offset written is strictly greater than the offset in effect when it
    is written: the offsets written, in order, grow strictly from the
    offset persisted at the start (an absent file counts as 0), and the
    last one is the offset persisted at the end.  The persisted offset
    never regresses. *)
Theorem sync_offset_never_regresses n p qn (w : World B) :
  strictly_increasing (DiskQueue p w) = true →
  ∃ vs,
    written (trace (sync_repeatedly n p qn w)) =
      written (trace w) ++ map (pair p) vs ∧
    StronglySorted Z.lt (default 0%Z (sync_offset_file_read p w) :: vs) ∧
    default 0%Z (sync_offset_file_read p (sync_repeatedly n p qn w)) =
      List.last vs (default 0%Z (sync_offset_file_read p w)) ∧
    (default 0%Z (sync_offset_file_read p w)
     ≤ default 0%Z (sync_offset_file_read p (sync_repeatedly n p qn w)))%Z.
Proof.
  revert w. induction n as [|n IH]; intros w Hinc.
  { exists []. simpl. rewrite app_nil_r. split_and!; try done.
    repeat constructor. }
  simpl. destruct (sync_experiment p qn w) as [w1 r1] eqn:Hsync. simpl.
  destruct (sync_pass_written 1000 p qn w w1 r1) as (vs1 & Hw1 & Hs1 & Hl1 & Hq1);
    [lia|done|done|].
  destruct (IH w1) as (vs2 & Hw2 & Hs2 & Hl2 & _); [by rewrite Hq1|].
  rewrite Hl1 in Hs2, Hl2.
  exists (vs1 ++ vs2).
  assert (StronglySorted Z.lt
            (default 0%Z (sync_offset_file_read p w) :: vs1 ++ vs2)) as Hs
    by by apply sorted_chain.
  split_and!; [|done| |].
  - by rewrite Hw2, Hw1, map_app, app_assoc.
  - by rewrite Hl2, list_last_app.
  - rewrite Hl2, <- list_last_app, <- list_last_cons_default.
    apply sorted_le_last; [done|]. left.
Qed.

(** *** The offset file is read once *)

Lemma partial_alter_const_twice (m : gmap string RunDir) n d d' :
  partial_alter (λ _, d) n (partial_alter (λ _, d') n m) = partial_alter (λ _, d) n m.
Proof.
  apply map_eq. intros j. rewrite !lookup_partial_alter.
  by repeat case_decide.
Qed.

Lemma set_run_dir_twice p d d' (w : World B) :
  set_run_dir p d (set_run_dir p d' w) = set_run_dir p d w.
Proof.
  destruct p; unfold set_run_dir, with_runs, with_offline_runs; simpl;
    by rewrite partial_alter_const_twice.
Qed.

Lemma set_offset_twice p o o' (w : World B) :
  set_sync_offset_file p o (set_sync_offset_file p o' w) = set_sync_offset_file p o w.
Proof.
  unfold set_sync_offset_file at 2 3.
  destruct (run_dir p w) as [d|] eqn:Hd.
  - unfold set_sync_offset_file. rewrite run_dir_set_run_dir. simpl.
    apply set_run_dir_twice.
  - unfold set_sync_offset_file. by rewrite Hd.
Qed.

Lemma set_offset_record p o ev (w : World B) :
  set_sync_offset_file p o (record ev w) = record ev (set_sync_offset_file p o w).
Proof.
  unfold set_sync_offset_file. rewrite run_dir_record.
  destruct (run_dir p w); [|done]. by destruct p.
Qed.

Lemma set_offset_with_backend p o b (w : World B) :
  set_sync_offset_file p o (with_backend b w) = with_backend b (set_sync_offset_file p o w).
Proof.
  unfold set_sync_offset_file. rewrite run_dir_with_backend.
  destruct (run_dir p w); [|done]. by destruct p.
Qed.

(** The loop never reads the offset file: started with the same offset in
    mind on two worlds that differ in that file only, it does the same,
    and the first write makes the two worlds equal. *)
Lemma process_ignores_offset_file p u qn bs : ∀ so o (w w0 : World B) r,
  process p u qn bs so w = (w0, r) →
  ∃ w1, process p u qn bs so (set_sync_offset_file p o w) = (w1, r) ∧
        (w1 = w0 ∨ w1 = set_sync_offset_file p o w0).
Proof.
  assert (Hstop : ∀ o (w w0 : World B) r,
    print stdout (SynchronizationCompleted qn) w = (w0, r) →
    ∃ w1, print stdout (SynchronizationCompleted qn) (set_sync_offset_file p o w) = (w1, r) ∧
          (w1 = w0 ∨ w1 = set_sync_offset_file p o w0)).
  { intros o w w0 r Hp. inversion Hp; subst. eexists. split; [done|].
    right. by rewrite set_offset_record. }
  induction bs as [|b bs IH]; intros so o w w0 r Hp; simpl in *.
  { by apply Hstop. }
  destruct b as [|first rest]; [by apply Hstop|].
  destruct (unsent so first rest) as [batch|]; [|by apply IH].
  rewrite send_eq in Hp. rewrite send_eq. rewrite backend_set_offset.
  simpl in *.
  destruct (execute_operations (backend w) u (map op batch)) as [b' [[]|e]].
  - rewrite <- !set_offset_record, <- set_offset_with_backend, <- !set_offset_record,
      set_offset_twice.
    eexists. split; [exact Hp|by left].
  - inversion Hp; subst. eexists. split; [done|]. right.
    by rewrite set_offset_with_backend, set_offset_record.
Qed.

(** C10. A pass behaves the same whether the offset file is absent or
    holds 0: it ends the same way, with the same trace (the same calls to
    the backend with the same batches, the same offsets written) and the
    same backend; the two worlds it leaves are equal as soon as one offset
    was written, and differ in that one file as before otherwise. *)
Theorem sync_absent_offset_is_zero p qn d (w : World B) :
  run_dir p w = Some d →
  let w_absent := set_sync_offset_file p None w in
  let w_zero := set_sync_offset_file p (Some 0%Z) w in
  let after_absent := sync_experiment p qn w_absent in
  let after_zero := sync_experiment p qn w_zero in
  sync_offset_file_read p w_absent = None ∧
  sync_offset_file_read p w_zero = Some 0%Z ∧
  after_zero.2 = after_absent.2 ∧
  trace after_zero.1 = trace after_absent.1 ∧
  backend after_zero.1 = backend after_absent.1 ∧
  (after_zero.1 = after_absent.1 ∨
   after_zero.1 = set_sync_offset_file p (Some 0%Z) after_absent.1).
Proof.
  intros Hd w_absent w_zero after_absent after_zero.
  assert (sync_offset_file_read p w_absent = None) as Habsent.
  { unfold sync_offset_file_read, w_absent. by rewrite run_dir_set_offset, Hd. }
  assert (sync_offset_file_read p w_zero = Some 0%Z) as Hzero.
  { unfold sync_offset_file_read, w_zero. by rewrite run_dir_set_offset, Hd. }
  assert (w_zero = set_sync_offset_file p (Some 0%Z) w_absent) as Hw
    by (unfold w_zero, w_absent; by rewrite set_offset_twice).
  assert (after_zero.2 = after_absent.2 ∧
          (after_zero.1 = after_absent.1 ∨
           after_zero.1 = set_sync_offset_file p (Some 0%Z) after_absent.1))
    as [Hr Hworld].
  { unfold after_zero, after_absent, sync_experiment.
    destruct (uuid_UUID (path_name p)) as [u|] eqn:Hu.
    - rewrite !(sync_experiment_with_eq _ _ _ u) by done.
      rewrite Habsent, Hzero. simpl default.
      assert (DiskQueue p w_zero = DiskQueue p w_absent) as ->.
      { unfold DiskQueue, w_zero, w_absent. by rewrite !run_dir_set_offset, Hd. }
      rewrite Hw, <- set_offset_record.
      destruct (process p u qn (batches 1000 (DiskQueue p w_absent)) 0
                  (record (Printed stdout (Synchronising qn)) w_absent))
        as [w0 r] eqn:Hp.
      destruct (process_ignores_offset_file _ _ _ _ _ (Some 0%Z) _ _ _ Hp)
        as (w1 & -> & Hw1).
      done.
    - unfold sync_experiment_with. rewrite Hu. simpl. split; [done|]. by right. }
  split_and!; try done.
  - destruct Hworld as [->| ->]; [done|]. apply trace_set_offset.
  - destruct Hworld as [->| ->]; [done|]. apply backend_set_offset.
Qed.

(** *** Telling whether an experiment is synchronised *)

Lemma last_operation_get disk_queue previous_operation :
  last_operation disk_queue previous_operation =
  match disk_queue_get disk_queue with
  | (None, _) => previous_operation
  | (Some operation, disk_queue') => last_operation disk_queue' (Some operation)
  end.
Proof. by destruct disk_queue. Qed.

Lemma last_operation_last q previous_operation :
  last_operation q previous_operation =
  match last q with Some o => Some o | None => previous_operation end.
Proof.
  revert previous_operation. induction q as [|o q IH]; intros prev; [done|].
  simpl. rewrite IH, last_cons. by destruct (last q).
Qed.

(** C1, as the program has it. [is_experiment_synced] answers true exactly
    when an offset file exists and the queue is empty or its last record
    has a version at most the offset; without an offset file the answer is
    false, also for an experiment that never logged anything. *)
Theorem is_experiment_synced_iff p (w : World B) :
  is_experiment_synced p w = true ↔
  ∃ sync_offset,
    sync_offset_file_read p w = Some sync_offset ∧
    match last (DiskQueue p w) with
    | None => True
    | Some o => (version o ≤ sync_offset)%Z
    end.
Proof.
  unfold is_experiment_synced. rewrite last_operation_last.
  destruct (sync_offset_file_read p w) as [sync_offset|].
  - destruct (last (DiskQueue p w)) as [o|].
    + rewrite Z.geb_le. split; [by eexists|]. by intros (? & [= <-] & ?).
    + split; [by eexists|done].
  - split; [done|]. by intros (? & ? & _).
Qed.

(** *** Moving an offline experiment *)

Lemma rename_ok src dst (w w' : World B) :
  rename src dst w = (w', Ok tt) →
  ∃ d, run_dir src w = Some d ∧ run_dir dst w = None ∧
       w' = set_run_dir dst (Some d) (set_run_dir src None (record (Renamed src dst) w)).
Proof.
  unfold rename. destruct (run_dir src w) as [d|]; [|done].
  destruct (run_dir dst w); [done|]. intros [= <-]. by exists d.
Qed.

Lemma rename_raise src dst (w w' : World B) e :
  rename src dst w = (w', Raise e) → e = OSError ∧ w' = w.
Proof.
  unfold rename. destruct (run_dir src w) as [d|]; [|by intros [= <- <-]].
  destruct (run_dir dst w); [by intros [= <- <-]|done].
Qed.

(** C8. [move_offline_experiment] is one [rename].  When it succeeds, the
    directory that was under the offline folder is under the base folder,
    with the same queue and the same offset file, and no longer under the
    offline folder; nothing else changes.  When it fails, nothing changes
    at all.  Either way the content is in exactly one of the two places. *)
Theorem move_offline_experiment_is_rename offline_uuid server_uuid (w w' : World B) r :
  move_offline_experiment offline_uuid server_uuid w = (w', r) →
  move_offline_experiment offline_uuid server_uuid =
    rename (B:=B) (OfflinePath offline_uuid) (RunPath server_uuid) ∧
  match r with
  | Ok _ =>
      ∃ d,
        run_dir (OfflinePath offline_uuid) w = Some d ∧
        run_dir (RunPath server_uuid) w = None ∧
        run_dir (OfflinePath offline_uuid) w' = None ∧
        run_dir (RunPath server_uuid) w' = Some d ∧
        DiskQueue (RunPath server_uuid) w' = DiskQueue (OfflinePath offline_uuid) w ∧
        sync_offset_file_read (RunPath server_uuid) w' =
          sync_offset_file_read (OfflinePath offline_uuid) w ∧
        trace w' = trace w ++ [Renamed (OfflinePath offline_uuid) (RunPath server_uuid)] ∧
        ∀ p, p ≠ OfflinePath offline_uuid → p ≠ RunPath server_uuid →
             run_dir p w' = run_dir p w
  | Raise e => e = OSError ∧ w' = w
  end.
Proof.
  intros Hmove. split; [done|]. unfold move_offline_experiment in Hmove.
  destruct r as [[]|e]; [|by eapply rename_raise].
  apply rename_ok in Hmove as (d & Hsrc & Hdst & ->). exists d.
  assert (run_dir (RunPath server_uuid)
            (set_run_dir (RunPath server_uuid) (Some d)
               (set_run_dir (OfflinePath offline_uuid) None
                  (record (Renamed (OfflinePath offline_uuid) (RunPath server_uuid)) w)))
          = Some d) as Hnew by apply run_dir_set_run_dir.
  split_and!; [done|done| |done| | |done|].
  - rewrite run_dir_set_run_dir_ne by done. apply run_dir_set_run_dir.
  - unfold DiskQueue. by rewrite Hnew, Hsrc.
  - unfold sync_offset_file_read. by rewrite Hnew, Hsrc.
  - intros p Hp1 Hp2. by rewrite !run_dir_set_run_dir_ne.
Qed.

(** *** Batches of experiments *)

Lemma for_each_app {A} (xs ys : list A) (body : A → M B unit) (w : World B) :
  for_each (xs ++ ys) body w =
  match for_each xs body w with
  | (w1, Ok _) => for_each ys body w1
  | (w1, Raise e) => (w1, Raise e)
  end.
Proof.
  revert w. induction xs as [|x xs IH]; intros w; [done|].
  simpl. unfold bind. destruct (body x w) as [w1 [[]|e]]; [|done]. apply IH.
Qed.

(** What [get_experiment] does when the lookup fails with an HTTP error. *)
Lemma get_experiment_http_error experiment_id status_code b' (w : World B) :
  getExperiment (backend w) experiment_id = (b', Raise (HTTPError status_code)) →
  get_experiment experiment_id w =
  (record (Printed stderr
             (GetExperimentWarning experiment_id status_code
                (bool_decide (status_code ∈ [401; 403; 404]%Z))))
          (with_backend b' (record (GetExperimentCall experiment_id) w)),
   Ok None).
Proof.
  intros Hget. unfold get_experiment, call. rewrite Hget.
  by destruct (bool_decide (status_code ∈ [401; 403; 404]%Z)).
Qed.

Lemma get_experiment_found experiment_id experiment b' (w : World B) :
  getExperiment (backend w) experiment_id = (b', Ok experiment) →
  get_experiment experiment_id w =
  (with_backend b' (record (GetExperimentCall experiment_id) w), Ok (Some experiment)).
Proof. intros Hget. unfold get_experiment, call. by rewrite Hget. Qed.

(** C9. A lookup that fails with status 401, 403 or 404 does not raise:
    [get_experiment] prints the warning that says the experiment is
    skipped and returns nothing.  In [sync_all_registered_experiments],
    wherever the experiment stands in the listing, the entries after it
    are processed as usual. *)
Theorem lookup_failure_skips_experiment experiment_id status_code b' (w : World B) :
  getExperiment (backend w) experiment_id = (b', Raise (HTTPError status_code)) →
  status_code ∈ [401; 403; 404]%Z →
  let w_skipped :=
    record (Printed stderr (GetExperimentWarning experiment_id status_code true))
           (with_backend b' (record (GetExperimentCall experiment_id) w)) in
  get_experiment experiment_id w = (w_skipped, Ok None) ∧
  ∀ before after w0,
    sync_all_registered_experiments_over before w0 = (w, Ok tt) →
    sync_all_registered_experiments_over (before ++ experiment_id :: after) w0 =
    if is_valid_uuid experiment_id
       && negb (is_experiment_synced (RunPath experiment_id) w)
    then sync_all_registered_experiments_over after w_skipped
    else sync_all_registered_experiments_over after w.
Proof.
  intros Hget Hcode w_skipped.
  assert (get_experiment experiment_id w = (w_skipped, Ok None)) as Hskip.
  { rewrite (get_experiment_http_error _ _ _ _ Hget).
    by rewrite bool_decide_eq_true_2. }
  split; [done|]. intros before after w0 Hbefore.
  unfold sync_all_registered_experiments_over in *.
  rewrite for_each_app, Hbefore. simpl.
  unfold bind, sync_all_registered_experiments_body.
  destruct (is_valid_uuid experiment_id
            && negb (is_experiment_synced (RunPath experiment_id) w)); [|done].
  unfold bind. by rewrite Hskip.
Qed.

Lemma references_offline_experiment_true name (w : World B) :
  references_offline_experiment w name = true ↔
  is_valid_uuid name = true ∧ is_Some (run_dir (OfflinePath name) w).
Proof.
  unfold references_offline_experiment.
  by rewrite andb_true_iff, bool_decide_eq_true.
Qed.

End Theory.

(** ** The program on concrete inputs *)

(** C1, as the specification words it, fails on an experiment that never
    logged anything: the specification calls it synchronised, the program
    does not. *)
Lemma never_logged_is_not_synced :
  ¬ (is_experiment_synced (RunPath run_a) never_logged_world = true ↔
     is_synchronized_spec (RunPath run_a) never_logged_world).
Proof.
  intros [_ Hspec].
  assert (is_experiment_synced (RunPath run_a) never_logged_world = true) as Hsynced.
  { apply Hspec. right. split; vm_compute; reflexivity. }
  vm_compute in Hsynced. discriminate.
Qed.

(** C2. Two offline experiments, the first [create_experiment] raises:
    [register_offline_experiment] reports it and returns nothing, and the
    loop of [register_offline_experiments] then reads [experiment.uuid] of
    nothing.  The batch ends in an [AttributeError]; the second experiment
    is never sent to the backend and stays offline. *)
Theorem create_failure_aborts_registration :
  let after := register_offline_experiments demo_project [run_a; run_b] offline_world in
  after.2 = Raise AttributeError ∧
  trace after.1 = [CreateExperimentCall "p-uuid"; Printed stderr CreateExperimentFailed] ∧
  run_dir (OfflinePath run_a) after.1 = Some (mkRunDir five_records None) ∧
  run_dir (OfflinePath run_b) after.1 = Some (mkRunDir five_records None) ∧
  run_dir (RunPath server_uuid) after.1 = None.
Proof. vm_compute. by repeat split. Qed.

(** C6, as the program has it.  The reader hands out batches of up to 1000
    records, whatever the backend: the five records go out in one call, in
    the order of their versions, and the offset goes from absent to 5.
    With batches of 2, the same loop makes three calls and the offset
    goes to 2, to 4 and to 5. *)
Theorem five_records_one_call :
  let after := sync_experiment (RunPath run_a) "w/p/X-1" fresh_world in
  let after_2 := sync_experiment_with 2 (RunPath run_a) "w/p/X-1" fresh_world in
  sync_offset_file_read (RunPath run_a) fresh_world = None ∧
  after.2 = Ok tt ∧
  executed (trace after.1) = [(run_a, map op five_records)] ∧
  written (trace after.1) = [(RunPath run_a, 5%Z)] ∧
  sync_offset_file_read (RunPath run_a) after.1 = Some 5%Z ∧
  after_2.2 = Ok tt ∧
  executed (trace after_2.1) =
    [(run_a, map op (map vop [1; 2]%Z)); (run_a, map op (map vop [3; 4]%Z));
     (run_a, map op (map vop [5]%Z))] ∧
  written (trace after_2.1) =
    [(RunPath run_a, 2%Z); (RunPath run_a, 4%Z); (RunPath run_a, 5%Z)] ∧
  sync_offset_file_read (RunPath run_a) after_2.1 = Some 5%Z.
Proof. vm_compute. by repeat split. Qed.

(** C6, as the specification words it, fails: there are not three calls
    and the offset does not go through 2 and 4. *)
Lemma five_records_not_three_calls :
  let after := sync_experiment (RunPath run_a) "w/p/X-1" fresh_world in
  ¬ (length (executed (trace after.1)) = 3 ∧
     map snd (written (trace after.1)) = [2; 4; 5]%Z).
Proof. vm_compute. intros [Hcalls _]. discriminate. Qed.

(** C7, as the specification words it, fails when no project is given: the
    reference names a directory of the offline folder and parses as a UUID,
    yet [get_project] returns nothing, the [if project:] guard skips the
    registration, and no [create_experiment] is made for it. *)
Lemma no_project_no_registration :
  let after := sync_selected_experiments None [run_a] welcoming_world in
  ¬ offline_routing_spec [run_a] welcoming_world after.1.
Proof. vm_compute. discriminate. Qed.

(** One instance of each statement that has premises. *)

Lemma sync_sends_unacknowledged_only_witness :
  strictly_increasing five_records = true ∧
  ∃ dispatched,
    executed (trace (sync_experiment (RunPath run_a) "w/p/X-1" resumed_world).1) =
      map (λ b, (run_a, map op b)) dispatched ∧
    concat dispatched = map vop [3; 4; 5]%Z.
Proof.
  split; [reflexivity|].
  destruct (sync_sends_unacknowledged_only (RunPath run_a) "w/p/X-1" run_a
              five_records 2 resumed_world
              (sync_experiment (RunPath run_a) "w/p/X-1" resumed_world).1
              (sync_experiment (RunPath run_a) "w/p/X-1" resumed_world).2)
    as (dispatched & Hexec & _ & _ & _ & _ & Hresume).
  - reflexivity.
  - vm_compute; reflexivity.
  - reflexivity.
  - vm_compute; reflexivity.
  - by destruct (sync_experiment (RunPath run_a) "w/p/X-1" resumed_world).
  - exists dispatched. split; [exact Hexec|].
    apply (Hresume (map vop [1; 2]%Z) (map vop [3; 4; 5]%Z)).
    + vm_compute; reflexivity.
    + reflexivity.
    + repeat constructor; simpl; lia.
    + repeat constructor; simpl; lia.
Defined.


Lemma sync_offset_never_regresses_witness :
  strictly_increasing long_queue = true ∧
  ∃ vs,
    written (trace (sync_repeatedly 2 (RunPath run_a) "w/p/X-1" flaky_world)) =
      map (pair (RunPath run_a)) vs ∧
    StronglySorted Z.lt (0%Z :: vs) ∧
    sync_offset_file_read (RunPath run_a)
      (sync_repeatedly 2 (RunPath run_a) "w/p/X-1" flaky_world) = Some 1001%Z.
Proof.
  split; [vm_compute; reflexivity|].
  destruct (sync_offset_never_regresses 2 (RunPath run_a) "w/p/X-1" flaky_world)
    as (vs & Hwritten & Hsorted & _ & _).
  - vm_compute; reflexivity.
  - exists vs. split; [exact Hwritten|]. split; [exact Hsorted|].
    vm_compute; reflexivity.
Defined.

Lemma move_offline_experiment_is_rename_witness :
  ∃ w' d,
    move_offline_experiment run_a server_uuid offline_world = (w', Ok tt) ∧
    run_dir (OfflinePath run_a) w' = None ∧
    run_dir (RunPath server_uuid) w' = Some d ∧
    queue d = five_records.
Proof.
  destruct (move_offline_experiment run_a server_uuid offline_world)
    as [w' r] eqn:Hmove.
  assert (r = Ok tt) as ->.
  { apply (f_equal snd) in Hmove. vm_compute in Hmove. by subst r. }
  destruct (move_offline_experiment_is_rename run_a server_uuid offline_world w'
              (Ok tt) Hmove) as [_ (d & Hsrc & _ & Hgone & Hnew & _)].
  exists w', d. split; [done|]. split; [exact Hgone|]. split; [exact Hnew|].
  vm_compute in Hsrc. by injection Hsrc as <-.
Defined.

Lemma lookup_failure_skips_experiment_witness :
  (403 ∈ [401; 403; 404])%Z ∧
  get_experiment run_a forbidden_world =
  (record (Printed stderr (GetExperimentWarning run_a 403 true))
     (with_backend forbidding_backend
        (record (GetExperimentCall run_a) forbidden_world)),
   Ok None).
Proof.
  assert (403 ∈ [401; 403; 404])%Z as Hcode by (right; left).
  split; [exact Hcode|].
  apply (lookup_failure_skips_experiment run_a 403%Z forbidding_backend forbidden_world);
    [reflexivity|exact Hcode].
Defined.

Lemma sync_absent_offset_is_zero_witness :
  (sync_experiment (RunPath run_a) "w/p/X-1"
     (set_sync_offset_file (RunPath run_a) (Some 0%Z) fresh_world)).2 =
  (sync_experiment (RunPath run_a) "w/p/X-1"
     (set_sync_offset_file (RunPath run_a) None fresh_world)).2 ∧
  trace (sync_experiment (RunPath run_a) "w/p/X-1"
           (set_sync_offset_file (RunPath run_a) (Some 0%Z) fresh_world)).1 =
  trace (sync_experiment (RunPath run_a) "w/p/X-1"
           (set_sync_offset_file (RunPath run_a) None fresh_world)).1.
Proof.
  destruct (sync_absent_offset_is_zero (RunPath run_a) "w/p/X-1"
              (mkRunDir five_records None) fresh_world)
    as (_ & _ & Hresult & Htrace & _).
  - vm_compute; reflexivity.
  - split; [exact Hresult|exact Htrace].
Defined.

(** ** More of the synchroniser *)

Section Passes.
Context {B : Type} `{!NeptuneBackend B} `{!Runtime}.

(** *** What a pass leaves alone *)

(** A pass changes nothing but the backend, the trace and the offset file
    of its own experiment: the queue it reads, the other directories and
    the environment are as before.  On a directory whose name is no UUID
    it raises [ValueError] before it does anything. *)
Theorem sync_experiment_frame p qn (w w' : World B) r :
  sync_experiment p qn w = (w', r) →
  project_env w' = project_env w ∧
  DiskQueue p w' = DiskQueue p w ∧
  (∀ p', p' ≠ p → run_dir p' w' = run_dir p' w) ∧
  (uuid_UUID (path_name p) = None → w' = w ∧ r = Raise ValueError).
Proof.
  intros Hsync. destruct (uuid_UUID (path_name p)) as [u|] eqn:Hu.
  - destruct (sync_pass_spec _ _ _ _ _ _ _ Hu Hsync) as (sent & Henv & Hframe & Hdir & _).
    split_and!; [done|by eapply queue_after_pass|done|done].
  - unfold sync_experiment, sync_experiment_with in Hsync. rewrite Hu in Hsync.
    injection Hsync as <- <-. by split_and!.
Qed.

(** *** What goes into one call *)

Lemma first_newer_suffix so batch s :
  first_newer so batch = Some s → s ≠ [] ∧ s `suffix_of` batch.
Proof.
  induction batch as [|o batch IH]; [done|]. simpl.
  destruct (version o >? so)%Z.
  - intros [= <-]. done.
  - intros [Hs Hsuf]%IH. split; [done|]. by apply suffix_cons_r.
Qed.


Lemma unsent_suffix so first rest batch :
  unsent so first rest = Some batch →
  batch ≠ [] ∧ batch `suffix_of` first :: rest.
Proof.
  unfold unsent.
  pose proof (first_newer_suffix so (first :: rest)) as Hnewer.
  destruct (first_newer so (first :: rest)) as [s|].
  - destruct (Hnewer s eq_refl) as [Hs Hsuf].
    destruct (version first >? so)%Z; [by intros [= <-]|].
    destruct (version (List.last (first :: rest) first) <=? so)%Z; [done|].
    by intros [= <-].
  - destruct (version first >? so)%Z; [by intros [= <-]|].
    destruct (version (List.last (first :: rest) first) <=? so)%Z; [done|].
    by intros [= <-].
Qed.

Lemma plan_suffixes bs : ∀ so,
  Forall (λ b, ∃ rb, rb ∈ bs ∧ b ≠ [] ∧ b `suffix_of` rb) (plan so bs).
Proof.
  induction bs as [|rb bs IH]; intros so; [constructor|].
  destruct rb as [|first rest]; [constructor|]. simpl.
  assert (∀ so', Forall (λ b, ∃ rb, rb ∈ (first :: rest) :: bs ∧ b ≠ [] ∧ b `suffix_of` rb)
                        (plan so' bs)) as Htail.
  { intros so'. eapply Forall_impl; [apply IH|]. simpl.
    intros b (rb & Hrb & Hb). exists rb. split; [by right|done]. }
  destruct (unsent so first rest) as [batch|] eqn:Hunsent; [|done].
  constructor; [|done].
  exists (first :: rest). split; [by left|]. by eapply unsent_suffix.
Qed.



(** *** Passes that have nothing to send *)

Lemma plan_all_acknowledged k bs :
  Forall (λ o, (version o ≤ k)%Z) (concat bs) → plan k bs = [].
Proof.
  induction bs as [|b bs IH]; intros Hall; [done|].
  simpl in Hall. apply Forall_app in Hall as [Hb Hbs].
  destruct b as [|first rest]; [done|]. simpl. unfold unsent.
  pose proof Hb as [Hfirst _]%Forall_cons.
  destruct (Z.gtb_spec (version first) k); [lia|].
  assert (version (List.last (first :: rest) first) ≤ k)%Z as Hlast.
  { rewrite Forall_forall in Hb. apply Hb. by apply last_elem. }
  destruct (Z.leb_spec (version (List.last (first :: rest) first)) k); [|lia].
  by apply IH.
Qed.

Lemma process_empty_plan p u qn bs so (w : World B) :
  plan so bs = [] →
  process p u qn bs so w = print stdout (SynchronizationCompleted qn) w.
Proof.
  induction bs as [|b bs IH]; intros Hplan; [done|].
  destruct b as [|first rest]; [done|]. simpl in *.
  destruct (unsent so first rest); [done|]. by apply IH.
Qed.

Lemma sync_nothing_newer size p qn u (w : World B) :
  0 < size →
  uuid_UUID (path_name p) = Some u →
  Forall (λ o, (version o ≤ default 0 (sync_offset_file_read p w))%Z) (DiskQueue p w) →
  sync_experiment_with size p qn w =
  (record (Printed stdout (SynchronizationCompleted qn))
     (record (Printed stdout (Synchronising qn)) w), Ok tt).
Proof.
  intros Hsize Hu Hall. rewrite (sync_experiment_with_eq _ _ _ u) by done.
  rewrite process_empty_plan; [done|].
  apply plan_all_acknowledged. by rewrite concat_batches.
Qed.

Lemma synced_all_acknowledged p (w : World B) :
  increasing (DiskQueue p w) →
  is_experiment_synced p w = true →
  Forall (λ o, (version o ≤ default 0 (sync_offset_file_read p w))%Z) (DiskQueue p w).
Proof.
  intros Hinc. unfold is_experiment_synced. rewrite last_operation_last.
  destruct (sync_offset_file_read p w) as [s|]; [|done]. simpl.
  destruct (last (DiskQueue p w)) as [o|] eqn:Hlast.
  - intros Hge%Z.geb_le. apply Forall_forall. intros x Hx.
    pose proof (increasing_le_last _ o x Hinc Hx) as Hle.
    rewrite (list_last_Some _ _ _ Hlast) in Hle. lia.
  - intros _. apply last_None in Hlast. rewrite Hlast. constructor.
Qed.

(** On an experiment that [is_experiment_synced] reports as synchronised
    (and whose versions grow strictly), a pass prints its two notices and
    does nothing else: no call to the backend, no write. *)
Theorem synced_experiment_sends_nothing p qn u (w : World B) :
  uuid_UUID (path_name p) = Some u →
  strictly_increasing (DiskQueue p w) = true →
  is_experiment_synced p w = true →
  sync_experiment p qn w =
  (record (Printed stdout (SynchronizationCompleted qn))
     (record (Printed stdout (Synchronising qn)) w), Ok tt).
Proof.
  intros Hu Hinc Hsynced. apply (sync_nothing_newer 1000 _ _ u); [lia|done|].
  by apply synced_all_acknowledged; [apply strictly_increasing_increasing|].
Qed.

(** *** After a pass that completed *)

Lemma increasing_batch bs rb : increasing (concat bs) → rb ∈ bs → increasing rb.
Proof.
  induction bs as [|b bs IH]; intros Hinc Hrb; [by apply elem_of_nil in Hrb|].
  simpl in Hinc. apply elem_of_cons in Hrb as [->|Hrb].
  - by eapply StronglySorted_app_1_l.
  - apply IH; [|done]. by eapply StronglySorted_app_1_r.
Qed.

Lemma increasing_suffix b rb : increasing rb → b `suffix_of` rb → increasing b.
Proof. intros Hinc [k ->]. by eapply StronglySorted_app_1_r. Qed.

Lemma concat_elem (bs : list (list VersionedOperation)) o :
  o ∈ concat bs → ∃ b, b ∈ bs ∧ o ∈ b.
Proof.
  intros (b & Hb & Ho)%list_elem_of_In%in_concat.
  exists b. by rewrite !list_elem_of_In.
Qed.

(** A pass that completed on a queue whose versions grow strictly: the
    offset it leaves is at least every version of the queue, and there is
    an offset file afterwards exactly when there was one before or some
    record was newer than the starting offset. *)
Lemma completed_pass_covers size p qn u (w w' : World B) :
  0 < size →
  uuid_UUID (path_name p) = Some u →
  strictly_increasing (DiskQueue p w) = true →
  sync_experiment_with size p qn w = (w', Ok tt) →
  Forall (λ o, (version o ≤ default 0 (sync_offset_file_read p w'))%Z) (DiskQueue p w) ∧
  (is_Some (sync_offset_file_read p w') ↔
   is_Some (sync_offset_file_read p w) ∨
   ∃ o, o ∈ DiskQueue p w ∧ (default 0 (sync_offset_file_read p w) < version o)%Z).
Proof.
  intros Hsize Hu Hq Hsync.
  pose proof (strictly_increasing_increasing _ Hq) as Hinc.
  destruct (sync_pass_spec _ _ _ _ _ _ _ Hu Hsync) as (sent & _ & _ & Hdir & Hsent & _).
  rewrite plan_batches_increasing in Hsent by done.
  set (k := default 0%Z (sync_offset_file_read p w)) in *.
  set (bs := batches size (DiskQueue p w)) in *.
  assert (concat bs = DiskQueue p w) as Hconcat by by apply concat_batches.
  assert (sync_offset_file_read p w' =
          match last (map last_version sent) with
          | Some v => Some v
          | None => sync_offset_file_read p w
          end) as Hread.
  { apply (read_after_pass _ _ _ _ Hdir). intros [v Hv].
    apply (plan_needs_dir size k). rewrite plan_batches_increasing by done.
    fold bs. rewrite <- Hsent. intros ->. done. }
  assert (StronglySorted Z.lt (k :: map last_version sent)) as Hsorted.
  { apply StronglySorted_cons. rewrite Hsent. split.
    - apply last_versions_newer.
    - apply last_versions_sorted. by rewrite Hconcat. }
  assert (default 0%Z (sync_offset_file_read p w') = List.last (map last_version sent) k)
    as Hk'.
  { rewrite Hread. destruct (last (map last_version sent)) as [v|] eqn:Hlast.
    - by rewrite (list_last_Some _ _ _ Hlast).
    - apply last_None in Hlast. by rewrite Hlast. }
  assert (∀ v, v ∈ k :: map last_version sent →
               (v ≤ default 0 (sync_offset_file_read p w'))%Z) as Hle.
  { intros v Hv. rewrite Hk', <- list_last_cons_default. by apply sorted_le_last. }
  split.
  - apply Forall_forall. intros o Ho.
    destruct (Z.le_gt_cases (version o) k) as [Hold|Hnew].
    { specialize (Hle k (list_elem_of_here _ _)). lia. }
    assert (o ∈ concat sent) as Hin.
    { rewrite Hsent, concat_newer_batches, Hconcat. by apply filter_newer_elem. }
    apply concat_elem in Hin as (b & Hb & Hob).
    assert (increasing b) as Hincb.
    { pose proof (plan_suffixes bs k) as Hplan.
      rewrite plan_increasing, <- Hsent in Hplan
        by (try apply batches_nonempty; by rewrite Hconcat).
      rewrite Forall_forall in Hplan.
      destruct (Hplan _ Hb) as (rb & Hrb & _ & Hsuf).
      eapply increasing_suffix; [|exact Hsuf].
      eapply increasing_batch; [|exact Hrb]. by rewrite Hconcat. }
    pose proof (increasing_le_last b (mkVersionedOperation "" 0) o Hincb Hob) as Hlast.
    fold (last_version b) in Hlast.
    assert (last_version b ∈ k :: map last_version sent) as Hv.
    { right. apply list_elem_of_In, in_map. by apply list_elem_of_In. }
    specialize (Hle _ Hv). lia.
  - rewrite Hread. destruct (last (map last_version sent)) as [v|] eqn:Hlast.
    + split; [|by eexists]. intros _. right.
      destruct sent as [|b sent']; [done|].
      assert (b ∈ newer_batches k bs) as Hb by (rewrite <- Hsent; left).
      apply newer_batches_elem in Hb as [Hne Hb].
      destruct b as [|o b]; [done|].
      destruct (Hb o) as [Ho Hk]; [left|].
      exists o. split; [by rewrite <- Hconcat|done].
    + apply last_None in Hlast. destruct sent; [|done].
      split; [by left|]. intros [Hsome|(o & Ho & Hk)]; [done|].
      assert (o ∈ concat (newer_batches k bs)) as Hin.
      { rewrite concat_newer_batches, Hconcat. by apply filter_newer_elem. }
      rewrite <- Hsent in Hin. by apply elem_of_nil in Hin.
Qed.

(** After a pass that completed (on a queue whose versions grow strictly),
    [is_experiment_synced] answers true exactly when there was an offset
    file before the pass or the queue holds a record with a version above
    0.  An experiment without offset file whose queue is empty, or holds
    no version above 0, is still reported as not synchronised. *)
Theorem completed_pass_is_synced p qn u (w w' : World B) :
  uuid_UUID (path_name p) = Some u →
  strictly_increasing (DiskQueue p w) = true →
  sync_experiment p qn w = (w', Ok tt) →
  is_experiment_synced p w' = true ↔
  is_Some (sync_offset_file_read p w) ∨
  ∃ o, o ∈ DiskQueue p w ∧ (0 < version o)%Z.
Proof.
  intros Hu Hq Hsync.
  destruct (completed_pass_covers 1000 p qn u w w') as [Hall Hsome]; [lia|done..|].
  assert (DiskQueue p w' = DiskQueue p w) as Hqueue.
  { destruct (sync_pass_spec _ _ _ _ _ _ _ Hu Hsync) as (sent & _ & _ & Hdir & _).
    by eapply queue_after_pass. }
  assert (is_experiment_synced p w' = true ↔ is_Some (sync_offset_file_read p w'))
    as ->.
  { unfold is_experiment_synced. rewrite last_operation_last, Hqueue.
    destruct (sync_offset_file_read p w') as [s|]; [|by split; [|intros []]].
    destruct (last (DiskQueue p w)) as [o|] eqn:Hlast; [|by split; [eexists|]].
    split; [by eexists|]. intros _. apply Z.geb_le.
    rewrite Forall_forall in Hall. apply (Hall o).
    apply last_Some in Hlast as [l' ->]. apply elem_of_app. right. left. }
  rewrite Hsome.
  destruct (sync_offset_file_read p w) as [s|]; simpl.
  - split; intros _; left; by eexists.
  - split; (intros [[]|Ho]; [done|by right]).
Qed.

(** A pass that follows a completed pass (on a queue whose versions grow
    strictly) has nothing to send: it prints its two notices, and neither
    calls the backend nor writes the offset. *)
Theorem second_pass_sends_nothing p qn qn2 u (w w' : World B) :
  uuid_UUID (path_name p) = Some u →
  strictly_increasing (DiskQueue p w) = true →
  sync_experiment p qn w = (w', Ok tt) →
  sync_experiment p qn2 w' =
  (record (Printed stdout (SynchronizationCompleted qn2))
     (record (Printed stdout (Synchronising qn2)) w'), Ok tt).
Proof.
  intros Hu Hq Hsync.
  destruct (completed_pass_covers 1000 p qn u w w') as [Hall _]; [lia|done..|].
  apply (sync_nothing_newer 1000 _ _ u); [lia|done|].
  destruct (sync_pass_spec _ _ _ _ _ _ _ Hu Hsync) as (sent & _ & _ & Hdir & _).
  by rewrite (queue_after_pass _ _ _ _ Hdir).
Qed.

End Passes.

(** ** More of the batches *)

Section Batches.
Context {B : Type} `{!NeptuneBackend B} `{!Runtime}.

(** *** Lookups *)

(** [get_experiment] raises exactly when the backend raises something that
    is not an [HTTPError], and then it raises the same exception and
    prints nothing.  An [HTTPError] of any status is turned into a warning
    and an empty result. *)
Theorem get_experiment_raises experiment_id (w w' : World B) e :
  get_experiment experiment_id w = (w', Raise e) ↔
  ∃ b', getExperiment (backend w) experiment_id = (b', Raise e) ∧
        (∀ status_code, e ≠ HTTPError status_code) ∧
        w' = with_backend b' (record (GetExperimentCall experiment_id) w).
Proof.
  unfold get_experiment, call.
  destruct (getExperiment (backend w) experiment_id) as [b' [experiment|e']].
  - split; [done|]. by intros (? & [= <-] & _).
  - destruct e' as [status_code| | | | |detail].
    1: { split.
         - by destruct (bool_decide (status_code ∈ [401; 403; 404]%Z)).
         - intros (? & [= <- <-] & Hne & _). by destruct (Hne status_code). }
    all: split; [intros [= <- <-]; by eexists|by intros (? & [= <- <-] & _ & ->)].
Qed.

(** What a lookup leaves alone: the directories and the environment. *)
Lemma get_experiment_frame experiment_id (w w' : World B) r :
  get_experiment experiment_id w = (w', r) →
  runs w' = runs w ∧ offline_runs w' = offline_runs w ∧ project_env w' = project_env w.
Proof.
  unfold get_experiment, call.
  destruct (getExperiment (backend w) experiment_id) as [b' [experiment|e']].
  - by intros [= <- <-].
  - destruct e' as [status_code| | | | |detail].
    1: by destruct (bool_decide (status_code ∈ [401; 403; 404]%Z)); intros [= <- <-].
    all: by intros [= <- <-].
Qed.

(** *** Synchronising everything under a location *)

Lemma for_each_skip {A} (xs : list A) (body : A → M B unit) (w : World B) :
  Forall (λ x, body x w = (w, Ok tt)) xs → for_each xs body w = (w, Ok tt).
Proof.
  induction 1 as [|x xs Hx _ IH]; [done|]. simpl. unfold bind. by rewrite Hx.
Qed.

(** When every directory of the base folder either has a name that is no
    UUID or is reported as synchronised, [sync_all_registered_experiments]
    does nothing at all: no lookup, no call, no output. *)
Theorem sync_all_registered_nothing_to_do (w : World B) :
  (∀ name, is_Some (runs w !! name) → is_valid_uuid name = true →
           is_experiment_synced (RunPath name) w = true) →
  sync_all_registered_experiments w = (w, Ok tt).
Proof.
  intros Hsynced. unfold sync_all_registered_experiments,
    sync_all_registered_experiments_over.
  apply for_each_skip, Forall_forall. intros name Hname.
  unfold iterdir in Hname. apply list_elem_of_fmap in Hname as ([n d] & -> & Hnd).
  apply elem_of_map_to_list in Hnd. simpl.
  unfold sync_all_registered_experiments_body.
  destruct (is_valid_uuid n) eqn:Hvalid; [|done].
  rewrite Hsynced; [done|by eexists|done].
Qed.

(** A pass that raises is the end of [sync_all_registered_experiments]:
    the exception goes through, and the entries after the experiment are
    neither looked up nor synchronised. *)
Theorem failed_pass_aborts_sync_all before name after experiment
    (w0 w w1 w' : World B) e :
  sync_all_registered_experiments_over before w0 = (w, Ok tt) →
  is_valid_uuid name = true →
  is_experiment_synced (RunPath name) w = false →
  get_experiment name w = (w1, Ok (Some experiment)) →
  sync_experiment (RunPath name) (get_qualified_name experiment) w1 = (w', Raise e) →
  sync_all_registered_experiments_over (before ++ name :: after) w0 = (w', Raise e).
Proof.
  intros Hbefore Hvalid Hunsynced Hget Hsync.
  unfold sync_all_registered_experiments_over in *.
  rewrite for_each_app, Hbefore. simpl.
  unfold bind, sync_all_registered_experiments_body.
  rewrite Hvalid, Hunsynced. simpl. unfold bind. by rewrite Hget, Hsync.
Qed.

(** *** Offline experiments and the project *)

(** [get_offline_experiments_ids] raises when the offline folder is
    missing.  Otherwise it returns the names in the folder that parse as
    a UUID, directories and plain files alike.  Every offline reference of
    [sync_selected_experiments] is among them, but not the other way
    round: a plain file with such a name is returned here and is no
    offline reference there, where the name has to be a directory. *)
Theorem get_offline_experiments_ids_spec folder (w : World B) :
  match get_offline_experiments_ids folder w with
  | Raise e => folder = NoOfflineFolder ∧ e = OSError
  | Ok ids =>
      ∃ files,
        folder = OfflineFolder files ∧
        (∀ name, name ∈ ids ↔
                 is_valid_uuid name = true ∧
                 (is_Some (run_dir (OfflinePath name) w) ∨ name ∈ files)) ∧
        (∀ name, references_offline_experiment w name = true → name ∈ ids) ∧
        (∀ name, name ∈ files → is_valid_uuid name = true →
                 run_dir (OfflinePath name) w = None →
                 name ∈ ids ∧ references_offline_experiment w name = false)
  end.
Proof.
  destruct folder as [|files]; simpl; [done|]. exists files. split; [done|].
  assert (∀ name, name ∈ List.filter is_valid_uuid
                             ((map_to_list (offline_runs w)).*1 ++ files) ↔
            is_valid_uuid name = true ∧
            (is_Some (run_dir (OfflinePath name) w) ∨ name ∈ files)) as Hiff.
  { intros name.
    rewrite list_elem_of_In, filter_In, <- list_elem_of_In, elem_of_app,
      list_elem_of_fmap.
    simpl. split.
    - intros [[([n d] & -> & Hnd%elem_of_map_to_list)|Hfile] Hvalid].
      + split; [done|]. left. by eexists.
      + split; [done|by right].
    - intros [Hvalid [[d Hd]|Hfile]]; (split; [|done]).
      + left. exists (name, d). split; [done|]. by apply elem_of_map_to_list.
      + by right. }
  split_and!; [done| |].
  - intros name [Hvalid Hdir]%references_offline_experiment_true.
    apply Hiff. split; [done|by left].
  - intros name Hfile Hvalid Hnone. split; [apply Hiff; split; [done|by right]|].
    apply not_true_iff_false. intros [_ Hdir]%references_offline_experiment_true.
    simpl in Hdir, Hnone. rewrite Hnone in Hdir. by destruct Hdir.
Qed.

(** [get_project] looks up the flag unless it is missing or empty, and the
    environment variable otherwise.  It returns no project exactly when
    there is no name to look up, which it reports without calling the
    backend, or when the backend raises [ProjectNotFound] for that name. *)
Theorem get_project_none project_name_flag (w w' : World B) :
  get_project project_name_flag w = (w', Ok None) ↔
  match chosen_project_name project_name_flag w with
  | None => w' = record (Printed stderr ProjectNameNotProvided) w
  | Some project_name =>
      ∃ b', backend_get_project (backend w) project_name = (b', Raise ProjectNotFound) ∧
            w' = record (Printed stderr (ProjectNotFoundMessage project_name))
                   (with_backend b' (record (GetProjectCall project_name) w))
  end.
Proof.
  assert (Hcall : ∀ project_name,
    match call (GetProjectCall project_name)
            (λ b, backend_get_project b project_name) w with
    | (w1, Ok project) => (w1, Ok (Some project))
    | (w1, Raise ProjectNotFound) =>
        (print stderr (ProjectNotFoundMessage project_name) ;;; ret None) w1
    | (w1, Raise e) => (w1, Raise e)
    end = (w', Ok None) ↔
    ∃ b', backend_get_project (backend w) project_name = (b', Raise ProjectNotFound) ∧
          w' = record (Printed stderr (ProjectNotFoundMessage project_name))
                 (with_backend b' (record (GetProjectCall project_name) w))).
  { intros project_name. unfold call.
    destruct (backend_get_project (backend w) project_name) as [b' [project|e]].
    - split; [done|]. by intros (? & [=] & _).
    - destruct e; try (split; [done|by intros (? & [=] & _)]).
      split; [intros [= <-]; by eexists|by intros (? & [= <-] & ->)]. }
  assert (Hnone : (print stderr ProjectNameNotProvided ;;; ret (None : option Project.t)) w
                  = (w', Ok None) ↔
                  w' = record (Printed stderr ProjectNameNotProvided) w).
  { split; [by intros [= <-]|by intros ->]. }
  unfold get_project, chosen_project_name.
  destruct project_name_flag as [flag|]; [destruct (bool_decide (flag = "")) eqn:Hflag|].
  2: { rewrite Hflag. apply Hcall. }
  all: destruct (project_env w) as [env|]; [|apply Hnone].
  all: destruct (bool_decide (env = "")); [apply Hnone|apply Hcall].
Qed.

Lemma get_project_frame project_name_flag (w w' : World B) r :
  get_project project_name_flag w = (w', r) →
  runs w' = runs w ∧ offline_runs w' = offline_runs w ∧ project_env w' = project_env w.
Proof.
  assert (Hcall : ∀ project_name,
    match call (GetProjectCall project_name)
            (λ b, backend_get_project b project_name) w with
    | (w1, Ok project) => (w1, Ok (Some project))
    | (w1, Raise ProjectNotFound) =>
        (print stderr (ProjectNotFoundMessage project_name) ;;; ret None) w1
    | (w1, Raise e) => (w1, Raise e)
    end = (w', r) →
    runs w' = runs w ∧ offline_runs w' = offline_runs w ∧ project_env w' = project_env w).
  { intros project_name. unfold call.
    destruct (backend_get_project (backend w) project_name) as [b' [project|e]].
    - by intros [= <- <-].
    - destruct e; by intros [= <- <-]. }
  assert (Hnone : (print stderr ProjectNameNotProvided ;;; ret (None : option Project.t)) w
                  = (w', r) →
    runs w' = runs w ∧ offline_runs w' = offline_runs w ∧ project_env w' = project_env w).
  { by intros [= <- <-]. }
  unfold get_project.
  destruct project_name_flag as [flag|]; [destruct (bool_decide (flag = "")) eqn:Hflag|].
  2: { rewrite Hflag. apply Hcall. }
  all: destruct (project_env w) as [env|]; [|apply Hnone].
  all: destruct (bool_decide (env = "")); [apply Hnone|apply Hcall].
Qed.

Lemma sync_experiment_offline_runs name qn (w w' : World B) r :
  sync_experiment (RunPath name) qn w = (w', r) →
  offline_runs w' = offline_runs w ∧ project_env w' = project_env w.
Proof.
  intros Hsync. destruct (uuid_UUID (path_name (RunPath name))) as [u|] eqn:Hu.
  - destruct (sync_pass_spec _ _ _ _ _ _ _ Hu Hsync) as (sent & Henv & Hframe & _).
    split; [|done]. apply map_eq. intros n.
    by apply (Hframe (OfflinePath n)).
  - unfold sync_experiment, sync_experiment_with in Hsync. rewrite Hu in Hsync.
    by injection Hsync as <- <-.
Qed.

Lemma sync_all_over_offline_runs entries : ∀ (w w' : World B) r,
  sync_all_registered_experiments_over entries w = (w', r) →
  offline_runs w' = offline_runs w ∧ project_env w' = project_env w.
Proof.
  unfold sync_all_registered_experiments_over.
  induction entries as [|name entries IH]; intros w w' r; simpl.
  { by intros [= <- <-]. }
  unfold bind at 1.
  destruct (sync_all_registered_experiments_body name w) as [w1 r1] eqn:Hbody.
  assert (offline_runs w1 = offline_runs w ∧ project_env w1 = project_env w) as [Ho He].
  { unfold sync_all_registered_experiments_body in Hbody.
    destruct (is_valid_uuid name && negb (is_experiment_synced (RunPath name) w));
      [|by injection Hbody as <- <-].
    unfold bind in Hbody.
    destruct (get_experiment name w) as [w2 [[experiment|]|e]] eqn:Hget;
      destruct (get_experiment_frame _ _ _ _ Hget) as (_ & Ho2 & He2).
    - apply sync_experiment_offline_runs in Hbody as [-> ->]. done.
    - by injection Hbody as <- <-.
    - by injection Hbody as <- <-. }
  destruct r1 as [[]|e].
  - intros [-> ->]%IH. done.
  - by intros [= <- <-].
Qed.

(** When the offline folder is missing, [sync_all_experiments] raises
    before it does anything.  When the folder is there and [get_project]
    finds no project, it registers nothing: the registered experiments
    are synchronised as usual and every offline experiment stays where it
    is. *)
Theorem sync_all_experiments_without_project folder project_name (w w1 : World B) :
  get_project project_name w = (w1, Ok None) →
  sync_all_experiments folder project_name w =
    match get_offline_experiments_ids folder w with
    | Raise e => (w, Raise e)
    | Ok [] => sync_all_registered_experiments w
    | Ok (_ :: _) => sync_all_registered_experiments w1
    end ∧
  (folder = NoOfflineFolder →
   sync_all_experiments folder project_name w = (w, Raise OSError)) ∧
  ∀ w' r, sync_all_experiments folder project_name w = (w', r) →
          offline_runs w' = offline_runs w.
Proof.
  intros Hproject.
  assert (sync_all_experiments folder project_name w =
    match get_offline_experiments_ids folder w with
    | Raise e => (w, Raise e)
    | Ok [] => sync_all_registered_experiments w
    | Ok (_ :: _) => sync_all_registered_experiments w1
    end) as Heq.
  { unfold sync_all_experiments.
    destruct (get_offline_experiments_ids folder w) as [[|id ids]|e]; [done| |done].
    unfold bind. by rewrite Hproject. }
  split; [done|]. split; [by intros ->|]. intros w' r. rewrite Heq.
  destruct (get_project_frame _ _ _ _ Hproject) as (_ & Ho & _).
  unfold sync_all_registered_experiments.
  destruct (get_offline_experiments_ids folder w) as [[|id ids]|e].
  - by intros [? _]%sync_all_over_offline_runs.
  - intros [-> _]%sync_all_over_offline_runs. done.
  - by intros [= <- <-].
Qed.

(** *** Registering offline experiments *)

Lemma Forall2_elem_l {A C} (P : A → C → Prop) l k x :
  Forall2 P l k → x ∈ l → ∃ y, y ∈ k ∧ P x y.
Proof.
  induction 1 as [|a c l k Hac _ IH]; intros Hx; [by apply elem_of_nil in Hx|].
  apply elem_of_cons in Hx as [->|Hx].
  - exists c. split; [left|done].
  - destruct (IH Hx) as (y & Hy & HP). exists y. split; [by right|done].
Qed.

Lemma Forall2_elem_r {A C} (P : A → C → Prop) l k y :
  Forall2 P l k → y ∈ k → ∃ x, x ∈ l ∧ P x y.
Proof.
  induction 1 as [|a c l k Hac _ IH]; intros Hy; [by apply elem_of_nil in Hy|].
  apply elem_of_cons in Hy as [->|Hy].
  - exists a. split; [left|done].
  - destruct (IH Hy) as (x & Hx & HP). exists x. split; [by right|done].
Qed.

Lemma register_offline_experiment_eq project (w : World B) :
  register_offline_experiment project w =
  match create_experiment (backend w) (Project.uuid project) with
  | (b', Ok experiment) =>
      (with_backend b' (record (CreateExperimentCall (Project.uuid project)) w),
       Ok (Some (Experiment.mk (ApiExperiment.uuid experiment)
                               (ApiExperiment.id experiment)
                               (Project.workspace project) (Project.name project))))
  | (b', Raise _) =>
      (record (Printed stderr CreateExperimentFailed)
         (with_backend b' (record (CreateExperimentCall (Project.uuid project)) w)),
       Ok None)
  end.
Proof.
  unfold register_offline_experiment, call.
  by destruct (create_experiment (backend w) (Project.uuid project)) as [b' [experiment|e]].
Qed.

Lemma register_loop_ok project ids : ∀ acc (w w' : World B) regs,
  register_offline_experiments_loop project ids acc w = (w', Ok regs) →
  ∃ new,
    regs = acc ++ new ∧
    Forall2 (λ id e,
       Experiment.organizationName e = Project.workspace project ∧
       Experiment.projectName e = Project.name project ∧
       is_Some (run_dir (OfflinePath id) w) ∧
       run_dir (OfflinePath id) w' = None ∧
       run_dir (RunPath (Experiment.uuid e)) w = None ∧
       run_dir (RunPath (Experiment.uuid e)) w' = run_dir (OfflinePath id) w) ids new ∧
    (∀ p, (∀ id, id ∈ ids → p ≠ OfflinePath id) →
          (∀ e, e ∈ new → p ≠ RunPath (Experiment.uuid e)) →
          run_dir p w' = run_dir p w) ∧
    trace w' = trace w ++ flat_map (registration_events project) (zip ids new).
Proof.
  induction ids as [|id ids IH]; intros acc w w' regs; simpl.
  { intros [= <- <-]. exists []. rewrite !app_nil_r. by split_and!. }
  unfold bind at 1. rewrite register_offline_experiment_eq.
  destruct (create_experiment (backend w) (Project.uuid project)) as [b' [ae|e]]; [|done].
  set (e := Experiment.mk _ _ _ _).
  set (w1 := with_backend b' (record (CreateExperimentCall (Project.uuid project)) w)).
  unfold bind at 1, move_offline_experiment.
  destruct (rename (OfflinePath id) (RunPath (Experiment.uuid e)) w1) as [w2 [[]|x]] eqn:Hmove;
    [|done].
  apply rename_ok in Hmove as (d & Hsrc & Hdst & Hw2).
  unfold bind at 1. simpl.
  set (w3 := record (Printed stdout (OfflineExperimentRegistered id (get_qualified_name e))) w2).
  assert (run_dir (OfflinePath id) w3 = None) as H3a.
  { unfold w3. rewrite run_dir_record, Hw2, run_dir_set_run_dir_ne by done.
    apply run_dir_set_run_dir. }
  assert (run_dir (RunPath (Experiment.uuid e)) w3 = Some d) as H3b.
  { unfold w3. rewrite run_dir_record, Hw2. apply run_dir_set_run_dir. }
  assert (∀ p, p ≠ OfflinePath id → p ≠ RunPath (Experiment.uuid e) →
               run_dir p w3 = run_dir p w) as H3c.
  { intros p Hp1 Hp2. unfold w3.
    by rewrite run_dir_record, Hw2, !run_dir_set_run_dir_ne. }
  intros (new & -> & Hall & Hframe & Htrace)%IH.
  assert (∀ id', id' ∈ ids → id' ≠ id) as Hids.
  { intros id' Hid' ->. destruct (Forall2_elem_l _ _ _ _ Hall Hid')
      as (e' & _ & _ & _ & [d' Hd'] & _). congruence. }
  assert (∀ e', e' ∈ new → Experiment.uuid e' ≠ Experiment.uuid e) as Hnew.
  { intros e' He' Heq. destruct (Forall2_elem_r _ _ _ _ Hall He')
      as (id' & _ & _ & _ & _ & _ & Hnone & _). congruence. }
  assert (run_dir (OfflinePath id) w' = None) as Hgone.
  { rewrite Hframe; [done| |done]. intros id' Hid' [= Heq]. by eapply Hids. }
  assert (run_dir (RunPath (Experiment.uuid e)) w' = run_dir (OfflinePath id) w) as Hmoved.
  { rewrite Hframe; [by rewrite H3b|done|].
    intros e' He' [= Heq]. by eapply Hnew. }
  exists (e :: new). split_and!.
  - by rewrite <- app_assoc.
  - constructor.
    + split_and!; [done|done|by eexists|exact Hgone|done|exact Hmoved].
    + eapply Forall2_impl; [exact Hall|]. cbv beta.
      intros id' e' (Horg & Hproj & [d' Hd'] & Hgone' & Hfree & Hmoved').
      assert (id' ≠ id) as Hne by congruence.
      assert (Experiment.uuid e' ≠ Experiment.uuid e) as Hne' by congruence.
      rewrite H3c in Hd', Hfree, Hmoved' by congruence.
      by split_and!.
  - intros p Hp1 Hp2. rewrite Hframe.
    + apply H3c; [apply Hp1; left|apply Hp2; left].
    + intros id' Hid'. apply Hp1. by right.
    + intros e' He'. apply Hp2. by right.
  - rewrite Htrace. unfold w3, record at 1. simpl. rewrite Hw2.
    simpl. by rewrite <- !app_assoc.
Qed.






(** *** Listing *)

Lemma looked_up_app t1 t2 : looked_up (t1 ++ t2) = looked_up t1 ++ looked_up t2.
Proof. apply omap_app. Qed.

Lemma get_experiment_trace experiment_id (w w' : World B) r :
  get_experiment experiment_id w = (w', r) →
  ∃ t, trace w' = trace w ++ t ∧
       forallb is_lookup_event t = true ∧
       looked_up t = [experiment_id].
Proof.
  unfold get_experiment, call.
  destruct (getExperiment (backend w) experiment_id) as [b' [experiment|e']].
  - intros [= <- <-]. by eexists [_].
  - destruct e' as [status_code| | | | |detail].
    1: destruct (bool_decide (status_code ∈ [401; 403; 404]%Z));
         intros [= <- <-]; eexists [_; _]; simpl; by rewrite <- app_assoc.
    all: intros [= <- <-]; by eexists [_].
Qed.

Lemma get_experiments_spec uuids : ∀ (w w' : World B) r,
  get_experiments uuids w = (w', r) →
  runs w' = runs w ∧ offline_runs w' = offline_runs w ∧
  project_env w' = project_env w ∧
  ∃ t, trace w' = trace w ++ t ∧
       forallb is_lookup_event t = true ∧
       looked_up t `prefix_of` uuids ∧
       match r with
       | Ok experiments => looked_up t = uuids ∧ length experiments ≤ length uuids
       | Raise _ => True
       end.
Proof.
  induction uuids as [|i uuids IH]; intros w w' r; simpl.
  { intros [= <- <-]. split_and!; try done. exists []. by rewrite app_nil_r. }
  unfold bind at 1.
  destruct (get_experiment i w) as [w1 [experiment|e]] eqn:Hget.
  - destruct (get_experiment_frame _ _ _ _ Hget) as (Hr1 & Ho1 & He1).
    destruct (get_experiment_trace _ _ _ _ Hget) as (t1 & Ht1 & Hl1 & Hi1).
    unfold bind at 1.
    destruct (get_experiments uuids w1) as [w2 [experiments|e]] eqn:Hrest;
      destruct (IH _ _ _ Hrest) as (Hr2 & Ho2 & He2 & t2 & Ht2 & Hl2 & Hp2 & Hres);
      intros [= <- <-].
    + split_and!; [congruence..|]. exists (t1 ++ t2).
      destruct Hres as [Hres Hlen].
      split; [|split; [|split; [|split]]].
      * by rewrite Ht2, Ht1, app_assoc.
      * by rewrite forallb_app, Hl1, Hl2.
      * rewrite looked_up_app, Hi1. by apply prefix_cons.
      * by rewrite looked_up_app, Hi1, Hres.
      * destruct experiment; simpl; lia.
    + split_and!; [congruence..|]. exists (t1 ++ t2). split_and!; [| | |done].
      * by rewrite Ht2, Ht1, app_assoc.
      * by rewrite forallb_app, Hl1, Hl2.
      * rewrite looked_up_app, Hi1. by apply prefix_cons.
  - destruct (get_experiment_frame _ _ _ _ Hget) as (Hr1 & Ho1 & He1).
    destruct (get_experiment_trace _ _ _ _ Hget) as (t1 & Ht1 & Hl1 & Hi1).
    intros [= <- <-]. split_and!; [done..|]. exists t1. split_and!; [done|done| |done].
    rewrite Hi1. apply prefix_cons, prefix_nil.
Qed.

Lemma get_experiments_cons x xs (w : World B) :
  get_experiments (x :: xs) w =
  match get_experiment x w with
  | (w1, Ok experiment) =>
      match get_experiments xs w1 with
      | (w2, Ok experiments) =>
          (w2, Ok (match experiment with
                   | Some experiment => experiment :: experiments
                   | None => experiments
                   end))
      | (w2, Raise e) => (w2, Raise e)
      end
  | (w1, Raise e) => (w1, Raise e)
  end.
Proof.
  simpl. unfold bind. destruct (get_experiment x w) as [w1 [experiment|e]]; [|done].
  by destruct (get_experiments xs w1) as [w2 [experiments|e]].
Qed.

Lemma get_experiments_app xs ys : ∀ (w : World B),
  get_experiments (xs ++ ys) w =
  match get_experiments xs w with
  | (w1, Ok a) =>
      match get_experiments ys w1 with
      | (w2, Ok b) => (w2, Ok (a ++ b))
      | (w2, Raise e) => (w2, Raise e)
      end
  | (w1, Raise e) => (w1, Raise e)
  end.
Proof.
  induction xs as [|x xs IH]; intros w.
  { simpl. by destruct (get_experiments ys w) as [w2 [b|e]]. }
  change ((x :: xs) ++ ys) with (x :: (xs ++ ys)).
  rewrite !get_experiments_cons.
  destruct (get_experiment x w) as [w1 [experiment|e]]; [|done].
  rewrite IH.
  destruct (get_experiments xs w1) as [w2 [a|e]]; [|done].
  destruct (get_experiments ys w2) as [w3 [b|e]]; [|done].
  by destruct experiment.
Qed.

(** A lookup that raises is the end of the comprehension. *)
Lemma get_experiments_raise before i after (w w1 w2 : World B) experiments e :
  get_experiments before w = (w1, Ok experiments) →
  get_experiment i w1 = (w2, Raise e) →
  get_experiments (before ++ i :: after) w = (w2, Raise e).
Proof.
  intros Hbefore Hget.
  by rewrite get_experiments_app, Hbefore, get_experiments_cons, Hget.
Qed.

Lemma get_experiments_raise_inv uuids : ∀ (w w' : World B) e,
  get_experiments uuids w = (w', Raise e) →
  ∃ before i after w1 experiments,
    uuids = before ++ i :: after ∧
    get_experiments before w = (w1, Ok experiments) ∧
    get_experiment i w1 = (w', Raise e).
Proof.
  induction uuids as [|x uuids IH]; intros w w' e; [done|].
  rewrite get_experiments_cons.
  destruct (get_experiment x w) as [w1 [experiment|e1]] eqn:Hget.
  - destruct (get_experiments uuids w1) as [w2 [experiments|e2]] eqn:Hrest; [done|].
    intros [= <- <-].
    destruct (IH _ _ _ Hrest) as (before & i & after & w3 & es & -> & Hbefore & Hi).
    exists (x :: before), i, after, w3,
      (match experiment with Some ex => ex :: es | None => es end).
    split_and!; [done| |done].
    by rewrite get_experiments_cons, Hget, Hbefore.
  - intros [= <- <-]. by exists [], x, uuids, w, [].
Qed.

Lemma partition_experiments_raise entries (w w' : World B) e :
  partition_experiments_over entries w = (w', Raise e) ↔
  get_experiments
    (List.filter (λ n, is_experiment_synced (RunPath n) w)
                 (List.filter is_valid_uuid entries) ++
     List.filter (λ n, negb (is_experiment_synced (RunPath n) w))
                 (List.filter is_valid_uuid entries)) w = (w', Raise e).
Proof.
  unfold partition_experiments_over. rewrite get_experiments_app.
  unfold bind.
  destruct (get_experiments _ w) as [w1 [s|e1]]; simpl;
    [|by split; intros [= -> ->]].
  destruct (get_experiments _ w1) as [w2 [u|e2]]; simpl;
    [|by split; intros [= -> ->]].
  split; intros [=].
Qed.

(** [partition_experiments] only looks experiments up: it leaves every
    directory and the environment as they are, and all it does is one
    [getExperiment] per directory whose name parses as a UUID, first the
    ones reported as synchronised and then the others, each in the order
    of the listing, with the warnings these lookups print.  It returns at
    most as many experiments as it looked up.  A lookup that raises ends
    it: when [get_experiment] raises on one of these names, the lookups
    before it having returned, [partition_experiments] raises the same
    exception in the world that lookup left and looks nothing else up; and
    it raises in no other way. *)
Theorem partition_experiments_only_looks_up entries (w w' : World B) r :
  partition_experiments_over entries w = (w', r) →
  let experiment_uuids := List.filter is_valid_uuid entries in
  let synced := List.filter (λ n, is_experiment_synced (RunPath n) w) experiment_uuids in
  let unsynced :=
    List.filter (λ n, negb (is_experiment_synced (RunPath n) w)) experiment_uuids in
  runs w' = runs w ∧ offline_runs w' = offline_runs w ∧
  project_env w' = project_env w ∧
  (∃ t, trace w' = trace w ++ t ∧
        forallb is_lookup_event t = true ∧
        match r with
        | Ok (synced_experiments, unsynced_experiments) =>
            looked_up t = synced ++ unsynced ∧
            length synced_experiments ≤ length synced ∧
            length unsynced_experiments ≤ length unsynced
        | Raise e =>
            ∃ before i after w1 experiments,
              synced ++ unsynced = before ++ i :: after ∧
              looked_up t = before ++ [i] ∧
              get_experiments before w = (w1, Ok experiments) ∧
              get_experiment i w1 = (w', Raise e)
        end) ∧
  (∀ before i after w1 w2 experiments e,
     synced ++ unsynced = before ++ i :: after →
     get_experiments before w = (w1, Ok experiments) →
     get_experiment i w1 = (w2, Raise e) →
     w' = w2 ∧ r = Raise e).
Proof.
  intros Hpart experiment_uuids synced unsynced.
  assert (Hforward : ∀ before i after w1 w2 experiments e,
     synced ++ unsynced = before ++ i :: after →
     get_experiments before w = (w1, Ok experiments) →
     get_experiment i w1 = (w2, Raise e) →
     w' = w2 ∧ r = Raise e).
  { intros before i after w1 w2 experiments e Hsplit Hbefore Hget.
    pose proof (get_experiments_raise before i after w w1 w2 experiments e Hbefore Hget)
      as Hraise.
    rewrite <- Hsplit in Hraise. apply partition_experiments_raise in Hraise.
    rewrite Hraise in Hpart. by injection Hpart as <- <-. }
  assert (Hraise : ∀ e, r = Raise e →
     ∃ before i after w1 experiments t,
       synced ++ unsynced = before ++ i :: after ∧
       get_experiments before w = (w1, Ok experiments) ∧
       get_experiment i w1 = (w', Raise e) ∧
       trace w' = trace w ++ t ∧ forallb is_lookup_event t = true ∧
       looked_up t = before ++ [i]).
  { intros e ->. apply partition_experiments_raise in Hpart.
    apply get_experiments_raise_inv in Hpart
      as (before & i & after & w1 & experiments & Hsplit & Hbefore & Hget).
    destruct (get_experiments_spec _ _ _ _ Hbefore)
      as (_ & _ & _ & t1 & Ht1 & Hl1 & _ & Hres1 & _).
    destruct (get_experiment_trace _ _ _ _ Hget) as (t2 & Ht2 & Hl2 & Hi2).
    exists before, i, after, w1, experiments, (t1 ++ t2).
    split_and!; [done|done|done| | |].
    - by rewrite Ht2, Ht1, app_assoc.
    - by rewrite forallb_app, Hl1, Hl2.
    - by rewrite looked_up_app, Hres1, Hi2. }
  unfold partition_experiments_over in Hpart.
  fold experiment_uuids in Hpart. fold synced in Hpart. fold unsynced in Hpart.
  unfold bind at 1 in Hpart.
  destruct (get_experiments synced w) as [w1 [s|e]] eqn:Hs;
    destruct (get_experiments_spec _ _ _ _ Hs)
      as (Hr1 & Ho1 & He1 & t1 & Ht1 & Hl1 & Hp1 & Hres1).
  - destruct Hres1 as [Hres1 Hlen1]. unfold bind at 1 in Hpart.
    destruct (get_experiments unsynced w1) as [w2 [u|e]] eqn:Hu;
      destruct (get_experiments_spec _ _ _ _ Hu)
        as (Hr2 & Ho2 & He2 & t2 & Ht2 & Hl2 & Hp2 & Hres2);
      injection Hpart as <- <-.
    + destruct Hres2 as [Hres2 Hlen2].
      split_and!; [congruence..| |done]. exists (t1 ++ t2).
      split; [|split; [|split; [|split]]]; [| | |done|done].
      * by rewrite Ht2, Ht1, app_assoc.
      * by rewrite forallb_app, Hl1, Hl2.
      * by rewrite looked_up_app, Hres1, Hres2.
    + split_and!; [congruence..| |done].
      destruct (Hraise e eq_refl)
        as (before & i & after & w3 & es & t & Hsplit & Hbefore & Hget & Ht & Hl & Hlook).
      exists t. split_and!; [done|done|]. by exists before, i, after, w3, es.
  - injection Hpart as <- <-. split_and!; [done..| |done].
    destruct (Hraise e eq_refl)
      as (before & i & after & w3 & es & t & Hsplit & Hbefore & Hget & Ht & Hl & Hlook).
    exists t. split_and!; [done|done|]. by exists before, i, after, w3, es.
Qed.

(** *** The references selected *)

Lemma filter_negb_all {A} (f : A → bool) l :
  List.filter f l = [] → List.filter (λ x, negb (f x)) l = l.
Proof.
  induction l as [|x l IH]; [done|]. simpl.
  destruct (f x); [done|]. intros Hl. simpl. by rewrite IH.
Qed.

Lemma created_app t1 t2 : created (t1 ++ t2) = created t1 ++ created t2.
Proof. apply omap_app. Qed.

Lemma lookup_events_created t : forallb is_lookup_event t = true → created t = [].
Proof.
  induction t as [|ev t IH]; [done|]. simpl. intros [Hev Ht]%andb_prop.
  destruct ev; try done; by apply IH.
Qed.

Lemma get_experiment_created experiment_id (w w' : World B) r :
  get_experiment experiment_id w = (w', r) → created (trace w') = created (trace w).
Proof.
  intros (t & -> & Ht & _)%get_experiment_trace.
  by rewrite created_app, (lookup_events_created t Ht), app_nil_r.
Qed.

Lemma created_send_events p u sent : created (flat_map (send_events p u) sent) = [].
Proof. induction sent as [|b sent IH]; [done|]. simpl. by rewrite IH. Qed.

Lemma sync_experiment_created p qn (w w' : World B) r :
  sync_experiment p qn w = (w', r) → created (trace w') = created (trace w).
Proof.
  intros Hsync. destruct (uuid_UUID (path_name p)) as [u|] eqn:Hu.
  - destruct (sync_pass_spec _ _ _ _ _ _ _ Hu Hsync) as (sent & _ & _ & _ & Hr).
    destruct r as [[]|e].
    + destruct Hr as [_ ->]. rewrite !created_app, created_send_events. simpl.
      by rewrite app_nil_r.
    + destruct Hr as (failed & _ & ->). rewrite !created_app, created_send_events.
      simpl. by rewrite app_nil_r.
  - unfold sync_experiment, sync_experiment_with in Hsync. rewrite Hu in Hsync.
    by injection Hsync as <- <-.
Qed.

Lemma get_project_created project_name_flag (w w' : World B) r :
  get_project project_name_flag w = (w', r) → created (trace w') = created (trace w).
Proof.
  assert (Hcall : ∀ project_name,
    match call (GetProjectCall project_name)
            (λ b, backend_get_project b project_name) w with
    | (w1, Ok project) => (w1, Ok (Some project))
    | (w1, Raise ProjectNotFound) =>
        (print stderr (ProjectNotFoundMessage project_name) ;;; ret None) w1
    | (w1, Raise e) => (w1, Raise e)
    end = (w', r) → created (trace w') = created (trace w)).
  { intros project_name. unfold call.
    destruct (backend_get_project (backend w) project_name) as [b' [project|e]].
    - intros [= <- <-]. simpl. by rewrite created_app, app_nil_r.
    - destruct e; intros [= <- <-]; simpl; by rewrite !created_app, !app_nil_r. }
  assert (Hnone : (print stderr ProjectNameNotProvided ;;; ret (None : option Project.t)) w
                  = (w', r) → created (trace w') = created (trace w)).
  { intros [= <- <-]. simpl. by rewrite created_app, app_nil_r. }
  unfold get_project.
  destruct project_name_flag as [flag|]; [destruct (bool_decide (flag = "")) eqn:Hflag|].
  2: { rewrite Hflag. apply Hcall. }
  all: destruct (project_env w) as [env|]; [|apply Hnone].
  all: destruct (bool_decide (env = "")); [apply Hnone|apply Hcall].
Qed.

(** The registered side registers nothing and leaves the offline folder
    alone. *)
Lemma sync_selected_registered_frame names : ∀ (w w' : World B) r,
  sync_selected_registered_experiments names w = (w', r) →
  offline_runs w' = offline_runs w ∧ created (trace w') = created (trace w).
Proof.
  unfold sync_selected_registered_experiments.
  induction names as [|name names IH]; intros w w' r; simpl.
  { by intros [= <- <-]. }
  unfold bind at 1.
  destruct (sync_selected_registered_experiments_body name w) as [w1 r1] eqn:Hbody.
  assert (offline_runs w1 = offline_runs w ∧ created (trace w1) = created (trace w))
    as [Ho Hc].
  { unfold sync_selected_registered_experiments_body, bind in Hbody.
    destruct (get_experiment name w) as [w2 [[experiment|]|e]] eqn:Hget;
      destruct (get_experiment_frame _ _ _ _ Hget) as (_ & Ho2 & _);
      pose proof (get_experiment_created _ _ _ _ Hget) as Hc2.
    - destruct (run_dir (RunPath (Experiment.uuid experiment)) w2).
      + pose proof (sync_experiment_created _ _ _ _ _ Hbody) as Hc3.
        apply sync_experiment_offline_runs in Hbody as [Ho3 _]. split; congruence.
      + injection Hbody as <- <-. simpl. by rewrite created_app, app_nil_r.
    - by injection Hbody as <- <-.
    - by injection Hbody as <- <-. }
  destruct r1 as [[]|e].
  - intros [Ho' Hc']%IH. split; congruence.
  - by intros [= <- <-].
Qed.

(** C7, as the program has it.  Among the references given to
    [sync_selected_experiments], those that parse as a UUID and name a
    directory of the offline folder are the offline ones.  When there is
    none, every reference goes to the registered side and no project is
    looked up.  When there are some and [get_project] finds no project,
    nothing is registered: no [create_experiment], the offline folder stays
    as it is, and the other references go to the registered side.  When
    the project is found and the registration returns, every offline
    directory has moved under the UUID the server gave, and the other
    references, followed by the names of the experiments just registered,
    go to the registered side.  There, one reference after the other: a
    lookup that fails with an HTTP error, or an experiment without
    directory under the base folder, gets a warning and the loop goes on
    with the next reference; an experiment found with its directory is
    synchronised by [sync_experiment], and the loop goes on when that pass
    returns. *)
Theorem sync_selected_routing project_name experiment_names (w : World B) :
  let offline_experiment_ids :=
    List.filter (references_offline_experiment w) experiment_names in
  let other_experiment_names :=
    List.filter (λ n, negb (references_offline_experiment w n)) experiment_names in
  (∀ name, name ∈ offline_experiment_ids ↔
           name ∈ experiment_names ∧ is_valid_uuid name = true ∧
           is_Some (run_dir (OfflinePath name) w)) ∧
  (∀ name, name ∈ other_experiment_names ↔
           name ∈ experiment_names ∧
           ¬ (is_valid_uuid name = true ∧ is_Some (run_dir (OfflinePath name) w))) ∧
  (offline_experiment_ids = [] →
   sync_selected_experiments project_name experiment_names w =
   sync_selected_registered_experiments experiment_names w) ∧
  (∀ w1,
     offline_experiment_ids ≠ [] →
     get_project project_name w = (w1, Ok None) →
     sync_selected_experiments project_name experiment_names w =
       sync_selected_registered_experiments other_experiment_names w1 ∧
     ∀ w' r, sync_selected_experiments project_name experiment_names w = (w', r) →
             offline_runs w' = offline_runs w ∧
             created (trace w') = created (trace w)) ∧
  (∀ w1 project w2 registered_experiments,
     offline_experiment_ids ≠ [] →
     get_project project_name w = (w1, Ok (Some project)) →
     register_offline_experiments project offline_experiment_ids w1 =
       (w2, Ok registered_experiments) →
     sync_selected_experiments project_name experiment_names w =
       sync_selected_registered_experiments
         (other_experiment_names ++ map get_qualified_name registered_experiments) w2 ∧
     Forall2 (λ id e,
                run_dir (OfflinePath id) w2 = None ∧
                run_dir (RunPath (Experiment.uuid e)) w2 = run_dir (OfflinePath id) w)
             offline_experiment_ids registered_experiments) ∧
  ∀ before name after (w0 w1 : World B),
    sync_selected_registered_experiments before w0 = (w1, Ok tt) →
    (∀ b' status_code,
       getExperiment (backend w1) name = (b', Raise (HTTPError status_code)) →
       sync_selected_registered_experiments (before ++ name :: after) w0 =
       sync_selected_registered_experiments after
         (record (Printed stderr
                    (GetExperimentWarning name status_code
                       (bool_decide (status_code ∈ [401; 403; 404]%Z))))
                 (with_backend b' (record (GetExperimentCall name) w1)))) ∧
    (∀ b' experiment,
       getExperiment (backend w1) name = (b', Ok experiment) →
       run_dir (RunPath (Experiment.uuid experiment)) w1 = None →
       sync_selected_registered_experiments (before ++ name :: after) w0 =
       sync_selected_registered_experiments after
         (record (Printed stderr (ExperimentDoesNotExist name))
                 (with_backend b' (record (GetExperimentCall name) w1)))) ∧
    (∀ b' experiment d,
       getExperiment (backend w1) name = (b', Ok experiment) →
       run_dir (RunPath (Experiment.uuid experiment)) w1 = Some d →
       sync_selected_registered_experiments (before ++ name :: after) w0 =
       match sync_experiment (RunPath (Experiment.uuid experiment)) name
               (with_backend b' (record (GetExperimentCall name) w1)) with
       | (w2, Ok _) => sync_selected_registered_experiments after w2
       | (w2, Raise e) => (w2, Raise e)
       end).
Proof.
  intros offline_experiment_ids other_experiment_names. split_and!.
  - intros name. unfold offline_experiment_ids.
    by rewrite list_elem_of_In, filter_In, <- list_elem_of_In,
      references_offline_experiment_true.
  - intros name. unfold other_experiment_names.
    rewrite list_elem_of_In, filter_In, <- list_elem_of_In, negb_true_iff,
      <- references_offline_experiment_true.
    by rewrite not_true_iff_false.
  - intros Hnone. unfold sync_selected_experiments.
    fold offline_experiment_ids. rewrite Hnone.
    rewrite (filter_negb_all _ _ Hnone). done.
  - intros w1 Hsome Hproject.
    assert (sync_selected_experiments project_name experiment_names w =
            sync_selected_registered_experiments other_experiment_names w1) as Heq.
    { unfold sync_selected_experiments.
      fold offline_experiment_ids. fold other_experiment_names.
      destruct offline_experiment_ids as [|id ids]; [done|].
      unfold bind. by rewrite Hproject. }
    split; [done|]. intros w' r. rewrite Heq.
    intros [Ho Hc]%sync_selected_registered_frame.
    destruct (get_project_frame _ _ _ _ Hproject) as (_ & Ho1 & _).
    pose proof (get_project_created _ _ _ _ Hproject) as Hc1.
    split; congruence.
  - intros w1 project w2 regs Hsome Hproject Hregister. split.
    + unfold sync_selected_experiments.
      fold offline_experiment_ids. fold other_experiment_names.
      destruct offline_experiment_ids as [|id ids]; [done|].
      unfold bind. by rewrite Hproject, Hregister.
    + destruct (get_project_frame _ _ _ _ Hproject) as (Hr1 & Ho1 & _).
      apply register_loop_ok in Hregister as (new & -> & Hall & _).
      eapply Forall2_impl; [exact Hall|]. cbv beta.
      intros id e (_ & _ & _ & Hgone & _ & Hmoved). split; [done|].
      rewrite Hmoved. simpl. by rewrite Ho1.
  - intros before name after w0 w1 Hbefore.
    unfold sync_selected_registered_experiments in *. split_and!.
    + intros b' status_code Hget. rewrite for_each_app, Hbefore. simpl.
      unfold bind, sync_selected_registered_experiments_body, bind.
      by rewrite (get_experiment_http_error _ _ _ _ Hget).
    + intros b' experiment Hget Hdir. rewrite for_each_app, Hbefore. simpl.
      unfold bind, sync_selected_registered_experiments_body, bind.
      rewrite (get_experiment_found _ _ _ _ Hget).
      rewrite run_dir_with_backend, run_dir_record, Hdir. done.
    + intros b' experiment d Hget Hdir. rewrite for_each_app, Hbefore. simpl.
      unfold bind, sync_selected_registered_experiments_body, bind.
      rewrite (get_experiment_found _ _ _ _ Hget).
      rewrite run_dir_with_backend, run_dir_record, Hdir.
      by destruct (sync_experiment _ _ _) as [w2 [[]|e]].
Qed.

End Batches.

(** ** Instances of the statements above *)

Lemma sync_experiment_frame_witness :
  DiskQueue (RunPath run_a)
    (sync_experiment (RunPath run_a) "w/p/X-1" failing_world).1 = five_records ∧
  run_dir (RunPath run_b)
    (sync_experiment (RunPath run_a) "w/p/X-1" failing_world).1 =
  Some (mkRunDir five_records None).
Proof.
  destruct (sync_experiment_frame (RunPath run_a) "w/p/X-1" failing_world
              (sync_experiment (RunPath run_a) "w/p/X-1" failing_world).1
              (sync_experiment (RunPath run_a) "w/p/X-1" failing_world).2)
    as (_ & Hqueue & Hframe & _).
  - by destruct (sync_experiment (RunPath run_a) "w/p/X-1" failing_world).
  - split; [by rewrite Hqueue|]. by rewrite (Hframe (RunPath run_b)).
Defined.


Lemma synced_experiment_sends_nothing_witness :
  is_experiment_synced (RunPath run_a) synced_world = true ∧
  executed (trace (sync_experiment (RunPath run_a) "w/p/X-1" synced_world).1) = [].
Proof.
  split; [vm_compute; reflexivity|].
  rewrite (synced_experiment_sends_nothing (RunPath run_a) "w/p/X-1" run_a synced_world);
    [reflexivity|reflexivity|vm_compute; reflexivity|vm_compute; reflexivity].
Defined.

Lemma completed_pass_is_synced_witness :
  is_experiment_synced (RunPath run_a)
    (sync_experiment (RunPath run_a) "w/p/X-1" fresh_world).1 = true.
Proof.
  apply (completed_pass_is_synced (RunPath run_a) "w/p/X-1" run_a fresh_world).
  - reflexivity.
  - vm_compute; reflexivity.
  - vm_compute; reflexivity.
  - right. exists (vop 5). split; [|vm_compute; reflexivity].
    vm_compute. do 4 right. left.
Defined.

Lemma second_pass_sends_nothing_witness :
  executed (trace (sync_experiment (RunPath run_a) "again"
                     (sync_experiment (RunPath run_a) "w/p/X-1" fresh_world).1).1) =
  executed (trace (sync_experiment (RunPath run_a) "w/p/X-1" fresh_world).1).
Proof.
  rewrite (second_pass_sends_nothing (RunPath run_a) "w/p/X-1" "again" run_a fresh_world
             (sync_experiment (RunPath run_a) "w/p/X-1" fresh_world).1);
    [|reflexivity|vm_compute; reflexivity|vm_compute; reflexivity].
  simpl. by rewrite !executed_app, !app_nil_r.
Defined.

Lemma sync_all_registered_nothing_to_do_witness :
  sync_all_registered_experiments synced_world = (synced_world, Ok tt).
Proof.
  apply sync_all_registered_nothing_to_do. intros name [d Hd] _.
  destruct (decide (name = run_a)) as [->|Hne]; [vm_compute; reflexivity|].
  unfold synced_world, world_of in Hd. simpl in Hd.
  by rewrite lookup_insert_ne, lookup_empty in Hd.
Defined.

Lemma failed_pass_aborts_sync_all_witness :
  (sync_all_registered_experiments_over [run_a; run_b] failing_world).2 =
  Raise (OtherError "503").
Proof.
  rewrite (failed_pass_aborts_sync_all [] run_a [run_b] demo_experiment
             failing_world failing_world
             (get_experiment run_a failing_world).1
             (sync_experiment (RunPath run_a) (get_qualified_name demo_experiment)
                (get_experiment run_a failing_world).1).1
             (OtherError "503")); vm_compute; reflexivity.
Defined.

Lemma sync_all_experiments_without_project_witness :
  offline_runs (sync_all_experiments (OfflineFolder []) None offline_world).1 =
    offline_runs offline_world ∧
  sync_all_experiments NoOfflineFolder None offline_world =
    (offline_world, Raise OSError).
Proof.
  destruct (sync_all_experiments_without_project (OfflineFolder []) None offline_world
              (record (Printed stderr ProjectNameNotProvided) offline_world))
    as (_ & _ & Hoffline); [reflexivity|].
  destruct (sync_all_experiments_without_project NoOfflineFolder None offline_world
              (record (Printed stderr ProjectNameNotProvided) offline_world))
    as (_ & Hmissing & _); [reflexivity|].
  split; [|by apply Hmissing].
  apply (Hoffline _ (sync_all_experiments (OfflineFolder []) None offline_world).2).
  by destruct (sync_all_experiments (OfflineFolder []) None offline_world).
Defined.

Lemma get_offline_experiments_ids_spec_witness :
  ∃ ids, get_offline_experiments_ids (OfflineFolder [server_uuid; "notes.txt"])
           offline_world = Ok ids ∧
         server_uuid ∈ ids ∧
         references_offline_experiment offline_world server_uuid = false.
Proof.
  pose proof (get_offline_experiments_ids_spec
                (OfflineFolder [server_uuid; "notes.txt"]) offline_world) as Hspec.
  destruct (get_offline_experiments_ids (OfflineFolder [server_uuid; "notes.txt"])
              offline_world) as [ids|e] eqn:Hids; [|by destruct Hspec as [[=] _]].
  destruct Hspec as (files & [= <-] & _ & _ & Hfiles).
  exists ids. split; [done|].
  apply Hfiles; [left|reflexivity|vm_compute; reflexivity].
Defined.



Lemma partition_experiments_only_looks_up_witness :
  runs (partition_experiments_over [run_a; "offline"] unreachable_world).1 =
    runs unreachable_world ∧
  (partition_experiments_over [run_a; "offline"] unreachable_world).2 =
    Raise (OtherError "connection refused").
Proof.
  destruct (partition_experiments_only_looks_up [run_a; "offline"] unreachable_world
              (partition_experiments_over [run_a; "offline"] unreachable_world).1
              (partition_experiments_over [run_a; "offline"] unreachable_world).2)
    as (Hruns & _ & _ & _ & Hforward).
  - by destruct (partition_experiments_over [run_a; "offline"] unreachable_world).
  - split; [exact Hruns|].
    destruct (Hforward [] run_a [] unreachable_world
                (get_experiment run_a unreachable_world).1 []
                (OtherError "connection refused")) as [_ Hr];
      [vm_compute; reflexivity|reflexivity|vm_compute; reflexivity|exact Hr].
Defined.

Lemma sync_selected_routing_witness :
  let w1 := (get_project (Some "workspace/project") welcoming_world).1 in
  let w2 := (register_offline_experiments demo_project [run_a] w1).1 in
  sync_selected_experiments (Some "workspace/project") [run_a; "NPT-7"] welcoming_world =
    sync_selected_registered_experiments ["NPT-7"; "workspace/project/NPT-1"] w2 ∧
  created (trace (sync_selected_experiments None [run_a; "NPT-7"] welcoming_world).1) = [].
Proof.
  intros w1 w2.
  destruct (sync_selected_routing (Some "workspace/project") [run_a; "NPT-7"]
              welcoming_world) as (_ & _ & _ & _ & Hfound & _).
  destruct (sync_selected_routing None [run_a; "NPT-7"] welcoming_world)
    as (_ & _ & _ & Hnone & _).
  split.
  - destruct (Hfound w1 demo_project w2
                [Experiment.mk server_uuid "NPT-1" "workspace" "project"])
      as [Heq _]; [vm_compute; discriminate|vm_compute; reflexivity
                  |vm_compute; reflexivity|exact Heq].
  - destruct (Hnone (get_project None welcoming_world).1) as [_ Hframe];
      [vm_compute; discriminate|vm_compute; reflexivity|].
    destruct (Hframe (sync_selected_experiments None [run_a; "NPT-7"] welcoming_world).1
                     (sync_selected_experiments None [run_a; "NPT-7"] welcoming_world).2)
      as [_ Hcreated].
    + by destruct (sync_selected_experiments None [run_a; "NPT-7"] welcoming_world).
    + exact Hcreated.
Defined.
